(** * A model of [function/push-gitlab-pending-jobs-metric.py]

    The Lambda handler polls GitLab for pending and running CI jobs of the
    recently active projects, reads the number of healthy in-service
    instances of an autoscaling group and publishes three CloudWatch
    metrics.  The Python code is embedded as functions in a state-and-error
    monad over a [world] that scripts what the remote services answer and
    records what was asked of them.  Logging is omitted throughout. *)

From Stdlib Require Import ZArith Ascii String List Lia Floats.SpecFloat.
From stdpp Require Import gmap strings list pretty.

Local Open Scope Z_scope.

(** ** Python values and exceptions *)

(** The JSON scalars the handler reads out of GitLab's answers. *)
Inductive jvalue :=
| JNull
| JInt (z : Z)
| JStr (s : string).

(** A decoded JSON object: a Python [dict] with string keys. *)
Abbreviation dict := (gmap string jvalue).

(** [str(v)], as [str.format] and [%s] apply it to a JSON scalar. *)
Definition str (v : jvalue) : string :=
  match v with
  | JNull => "None"
  | JInt z => pretty z
  | JStr s => s
  end.

(** The exceptions that can travel through the handler.  [ClientError]
    carries botocore's parsed [response] dictionary; [Timeout] and
    [ConnectionError] are those of [requests.exceptions];
    [EndpointConnectionError] is botocore's (not a [ClientError]);
    [Exception] is the generic one the handler raises itself. *)
Inductive exn :=
| ClientError (response : gmap string (gmap string string))
| Timeout
| ConnectionError
| EndpointConnectionError
| Exception (msg : string)
| KeyError (key : string)
| IndexError
| ValueError
| TypeError
| ZeroDivisionError
| OverflowError.

(** How a piece of Python ends: it returns or it raises.  [OutOfFuel] is the
    model's own: it marks a loop that was cut off before it ended, and
    [get_all_project_ids] is shown never to end that way. *)
Inductive result (A : Type) :=
| Ok (a : A)
| Raise (e : exn)
| OutOfFuel.
Arguments Ok {A} a.
Arguments Raise {A} e.
Arguments OutOfFuel {A}.

Definition rbind {A B} (r : result A) (k : A -> result B) : result B :=
  match r with
  | Ok a => k a
  | Raise e => Raise e
  | OutOfFuel => OutOfFuel
  end.

Notation "'let?' x ':=' r 'in' k" := (rbind r (fun x => k))
  (at level 10, x name, r at level 100, k at level 200).

(** A number as CloudWatch receives it: a Python [int] or a Python [float]
    (IEEE 754 binary64, as specified by [SpecFloat]). *)
Inductive number :=
| PInt (z : Z)
| PFloat (f : spec_float).

(** ** Floats *)

Definition prec : Z := 53.
Definition emax : Z := 1024.

(** [float(z)] for an [int]: round to nearest, ties to even;
    [OverflowError] when the rounded value is not a finite double. *)
Definition float_of_int (z : Z) : result spec_float :=
  match binary_normalize prec emax z 0 false with
  | S754_infinity _ => Raise OverflowError
  | f => Ok f
  end.

Definition is_zero (f : spec_float) : bool :=
  match f with
  | S754_zero _ => true
  | _ => false
  end.

(** [x / y] on floats: Python raises where IEEE 754 would divide by zero. *)
Definition float_truediv (x y : spec_float) : result spec_float :=
  if is_zero y then Raise ZeroDivisionError else Ok (SFdiv prec emax x y).

(** ** Strings *)

(** [s.split(sep)] for a one-character separator. *)
Fixpoint split (sep : ascii) (s : string) : list string :=
  match s with
  | EmptyString => [EmptyString]
  | String c s' =>
      if Ascii.eqb c sep then EmptyString :: split sep s'
      else match split sep s' with
           | x :: xs => String c x :: xs
           | [] => [String c EmptyString]
           end
  end.

Definition lower_ascii (c : ascii) : ascii :=
  let n := nat_of_ascii c in
  if ((65 <=? n)%nat && (n <=? 90)%nat)%bool then ascii_of_nat (n + 32) else c.

(** [s.lower()] on ASCII text. *)
Fixpoint lower (s : string) : string :=
  match s with
  | EmptyString => EmptyString
  | String c s' => String (lower_ascii c) (lower s')
  end.

(** [l[i]] on a list. *)
Definition index {A} (l : list A) (i : nat) : result A :=
  match l !! i with
  | Some x => Ok x
  | None => Raise IndexError
  end.

(** [d[k]] on a dict. *)
Definition getitem (d : dict) (k : string) : result jvalue :=
  match d !! k with
  | Some v => Ok v
  | None => Raise (KeyError k)
  end.

(** ** The remote services *)

(** What [requests.get] hands back.  [headers] is requests'
    case-insensitive dictionary, kept the way that class stores it: keyed by
    the lower-cased header name. *)
Record response := {
  status_code : Z;
  headers : gmap string string;
  json : list dict
}.

(** ['name' in res.headers] and [res.headers['name']]. *)
Definition headers_lookup (name : string) (res : response) : option string :=
  headers res !! lower name.

Record instance := {
  InstanceId : string;
  HealthStatus : string;
  LifecycleState : string
}.

(** One entry of [result['AutoScalingGroups']]; the ['Instances'] key may be
    missing. *)
Record auto_scaling_group := {
  Instances : option (list instance)
}.

Record metric_datum := {
  MetricName : string;
  Dimensions : list (string * string);
  Timestamp : Z;
  Value : number;
  Unit : string;
  StorageResolution : Z
}.

(** The calls made on the boto3 clients, with their keyword arguments. *)
Inductive sdk_request :=
| GetParameter (Name : string) (WithDecryption : bool)
| DescribeAutoScalingGroups (AutoScalingGroupNames : list string)
| PutMetricData (Namespace : string) (MetricData : list metric_datum).

(** What one remote call does: it returns or it raises. *)
Inductive outcome (A : Type) :=
| Returns (a : A)
| Raises (e : exn).
Arguments Returns {A} a.
Arguments Raises {A} e.

Definition result_of {A} (o : outcome A) : result A :=
  match o with
  | Returns a => Ok a
  | Raises e => Raise e
  end.

(** The world outside the handler.  Each script lists what the successive
    calls on one service will do; a call on an exhausted script finds the
    service unreachable.  The logs record every call made, oldest first:
    [http_log] holds the URL and the [PRIVATE-TOKEN] header of each
    [requests.get].  [clock] is the time of the invocation, in microseconds,
    as [datetime.utcnow()] and [time.time()] read it. *)
Record world := {
  http_script : list (outcome response);
  ssm_script : list (outcome string);
  asg_script : list (outcome (list auto_scaling_group));
  cw_script : list (outcome unit);
  http_log : list (string * string);
  sdk_log : list sdk_request;
  clock : Z
}.

(** ** The monad of the handler *)

Definition M (A : Type) : Type := world -> result A * world.

Definition ret {A} (a : A) : M A := fun w => (Ok a, w).

Definition raise {A} (e : exn) : M A := fun w => (Raise e, w).

Definition lift {A} (r : result A) : M A := fun w => (r, w).

Definition bind {A B} (c : M A) (k : A -> M B) : M B :=
  fun w =>
    match c w with
    | (Ok a, w') => k a w'
    | (Raise e, w') => (Raise e, w')
    | (OutOfFuel, w') => (OutOfFuel, w')
    end.

Notation "x <- c ;; k" := (bind c (fun x => k))
  (at level 100, c at next level, right associativity).

(** The head of a script, or [unreachable] when nothing is left. *)
Definition next_outcome {A} (unreachable : exn) (script : list (outcome A)) : result A :=
  match script with
  | [] => Raise unreachable
  | o :: _ => result_of o
  end.

(** [requests.get(url, headers={'PRIVATE-TOKEN': token})]. *)
Definition requests_get (url token : string) : M response :=
  fun w =>
    (next_outcome ConnectionError (http_script w),
     {| http_script := tail (http_script w);
        ssm_script := ssm_script w;
        asg_script := asg_script w;
        cw_script := cw_script w;
        http_log := http_log w ++ [(url, token)];
        sdk_log := sdk_log w;
        clock := clock w |}).

(** [ssm_client.get_parameter(Name=..., WithDecryption=...)], reduced to the
    [result['Parameter']['Value']] the handler reads. *)
Definition ssm_get_parameter (Name : string) (WithDecryption : bool) : M string :=
  fun w =>
    (next_outcome EndpointConnectionError (ssm_script w),
     {| http_script := http_script w;
        ssm_script := tail (ssm_script w);
        asg_script := asg_script w;
        cw_script := cw_script w;
        http_log := http_log w;
        sdk_log := sdk_log w ++ [GetParameter Name WithDecryption];
        clock := clock w |}).

(** [asg_client.describe_auto_scaling_groups(AutoScalingGroupNames=...)],
    reduced to [result['AutoScalingGroups']]. *)
Definition asg_describe_auto_scaling_groups (AutoScalingGroupNames : list string)
  : M (list auto_scaling_group) :=
  fun w =>
    (next_outcome EndpointConnectionError (asg_script w),
     {| http_script := http_script w;
        ssm_script := ssm_script w;
        asg_script := tail (asg_script w);
        cw_script := cw_script w;
        http_log := http_log w;
        sdk_log := sdk_log w ++ [DescribeAutoScalingGroups AutoScalingGroupNames];
        clock := clock w |}).

(** [cw_client.put_metric_data(Namespace=..., MetricData=...)]. *)
Definition cw_put_metric_data (Namespace : string) (MetricData : list metric_datum) : M unit :=
  fun w =>
    (next_outcome EndpointConnectionError (cw_script w),
     {| http_script := http_script w;
        ssm_script := ssm_script w;
        asg_script := asg_script w;
        cw_script := tail (cw_script w);
        http_log := http_log w;
        sdk_log := sdk_log w ++ [PutMetricData Namespace MetricData];
        clock := clock w |}).

(** [datetime.utcnow()] and [time.time()]. *)
Definition utcnow : M Z := fun w => (Ok (clock w), w).
Definition time_time : M Z := fun w => (Ok (clock w), w).

(** ** The retry decorator

    [backoff.on_exception(backoff.expo, exception, max_tries=..., giveup=...)]
    calls the target again while it raises an exception of class
    [exception] (here [catches]) for which [giveup] is false, until
    [max_tries] calls have been made; the exception of the last call is
    re-raised.  Exceptions of another class pass through at once.  [more]
    counts the calls still allowed after the current one.  The waits between
    the calls are left out. *)
Fixpoint retry_exception {A} (catches giveup : exn -> bool) (more : nat) (target : M A) : M A :=
  fun w =>
    match target w with
    | (Ok a, w') => (Ok a, w')
    | (Raise e, w') =>
        if catches e then
          if giveup e then (Raise e, w')
          else match more with
               | O => (Raise e, w')
               | S more' => retry_exception catches giveup more' target w'
               end
        else (Raise e, w')
    | (OutOfFuel, w') => (OutOfFuel, w')
    end.

Definition on_exception {A} (catches : exn -> bool) (max_tries : nat)
    (giveup : exn -> bool) (target : M A) : M A :=
  retry_exception catches giveup (max_tries - 1) target.

Definition MAX_RETRIES : nat := 8.

Definition is_ClientError (e : exn) : bool :=
  match e with
  | ClientError _ => true
  | _ => false
  end.

Definition is_Timeout (e : exn) : bool :=
  match e with
  | Timeout => true
  | _ => false
  end.

(** [e.response.get('Error', {}).get('Code', 'Unknown') != 'RequestLimitExceeded'];
    the decorator only asks it about a [ClientError]. *)
Definition no_request_limit_exceeded_code (e : exn) : bool :=
  match e with
  | ClientError response =>
      negb (String.eqb (default "Unknown" (default ∅ (response !! "Error") !! "Code"))
                       "RequestLimitExceeded")
  | _ => true
  end.

Definition get_parameter (Name : string) (WithDecryption : bool) : M string :=
  on_exception is_ClientError MAX_RETRIES no_request_limit_exceeded_code
    (ssm_get_parameter Name WithDecryption).

Definition put_metric_data (Namespace : string) (MetricData : list metric_datum) : M unit :=
  on_exception is_ClientError MAX_RETRIES no_request_limit_exceeded_code
    (cw_put_metric_data Namespace MetricData).

Definition describe_auto_scaling_groups (AutoScalingGroupNames : list string)
  : M (list auto_scaling_group) :=
  on_exception is_ClientError MAX_RETRIES no_request_limit_exceeded_code
    (asg_describe_auto_scaling_groups AutoScalingGroupNames).

(** No [giveup] is given for the HTTP GET: a timeout is always retried. *)
Definition get_request (url token : string) : M response :=
  on_exception is_Timeout MAX_RETRIES (fun _ => false) (requests_get url token).

(** ** Dates

    A naive [datetime] is represented by the number of microseconds between
    0001-01-01T00:00:00 and it: comparison of datetimes is comparison of
    these numbers, and subtracting a [timedelta] subtracts its length. *)
Abbreviation datetime := Z (only parsing).

Definition timedelta_hours (h : Z) : Z := h * 3600 * 1000000.

(** ** Configuration

    What the module makes of the environment variables when it is loaded:
    [RUNNERS_PER_INSTANCE] after [int(...)], [NARROW_TO_MEMBERSHIP] after the
    comparison of the lower-cased text with ['true'].  The log level only
    serves logging and is left out. *)
Record config := {
  TOKEN_SSM_PATH : string;
  GITLAB_URI : string;
  ASG_NAME : string;
  RUNNERS_PER_INSTANCE : Z;
  NARROW_TO_MEMBERSHIP : bool
}.

Section Handler.

(** [datetime.strptime(s, '%Y-%m-%dT%H:%M:%S.%fZ')]: [None] stands for the
    [ValueError] it raises on text that does not match.  The library function
    is a parameter: what is proved holds for every parser. *)
Variable strptime : string -> option datetime.

Variable cfg : config.

(** *** Project discovery *)

(** The URL of the first page of projects. *)
Definition first_link : string :=
  GITLAB_URI cfg
  +:+ "/api/v4/projects?pagination=keyset&per_page=50&order_by=id&sort=asc&simple=true"
  +:+ (if NARROW_TO_MEMBERSHIP cfg then "&membership=true" else EmptyString).

(** [datetime.strptime(project['last_activity_at'], ...)]. *)
Definition last_activity_of (project : dict) : result datetime :=
  let? last_activity_str := getitem project "last_activity_at" in
  match last_activity_str with
  | JStr s =>
      match strptime s with
      | Some t => Ok t
      | None => Raise ValueError
      end
  | _ => Raise TypeError
  end.

(** The [for project in res.json()] loop of one page. *)
Fixpoint scan_projects (four_hours_ago : datetime) (projects : list dict)
    (project_ids : list jvalue) : result (list jvalue) :=
  match projects with
  | [] => Ok project_ids
  | project :: projects' =>
      let? pid := getitem project "id" in
      let? last_activity := last_activity_of project in
      scan_projects four_hours_ago projects'
        (if last_activity >? four_hours_ago then project_ids ++ [pid] else project_ids)
  end.

(** [links.split('<')[1].split('>')[0]]. *)
Definition next_link (links : string) : result string :=
  let? segment := index (split "<" links) 1 in
  index (split ">" segment) 0.

(** The [while True] loop, one page per round.  [fuel] bounds the number of
    rounds.  The counter [total_numb_of_projects] is only logged and is left
    out. *)
Fixpoint project_pages (fuel : nat) (four_hours_ago : datetime) (token link : string)
    (project_ids : list jvalue) : M (list jvalue) :=
  match fuel with
  | O => lift OutOfFuel
  | S fuel' =>
      res <- get_request link token ;;
      if negb (status_code res =? 200) then
        raise (Exception "Error retrieving all the projects")
      else
        project_ids' <- lift (scan_projects four_hours_ago (json res) project_ids) ;;
        match headers_lookup "Links" res with
        | None => ret project_ids'
        | Some links =>
            link' <- lift (next_link links) ;;
            project_pages fuel' four_hours_ago token link' project_ids'
        end
  end.

(** Every round takes at least one answer off the script, so one round more
    than there are answers left is enough. *)
Definition get_all_project_ids (token : string) : M (list jvalue) :=
  fun w =>
    (now <- utcnow ;;
     let four_hours_ago := now - timedelta_hours 4 in
     project_pages (S (length (http_script w))) four_hours_ago token first_link []) w.

(** *** Job aggregation *)

Definition jobs_link (project_id : jvalue) (scope : string) : string :=
  GITLAB_URI cfg +:+ "/api/v4/projects/" +:+ str project_id +:+ "/jobs?scope[]=" +:+ scope.

Definition get_pending_jobs (project_id : jvalue) (token : string) : M (list dict) :=
  res <- get_request (jobs_link project_id "pending") token ;;
  if negb (status_code res =? 200) then ret [] else ret (json res).

Definition get_running_jobs (project_id : jvalue) (token : string) : M (list dict) :=
  res <- get_request (jobs_link project_id "running") token ;;
  if negb (status_code res =? 200) then ret [] else ret (json res).

(** [job['id'] for job in jobs], as [list.extend] consumes it. *)
Fixpoint job_ids (jobs : list dict) : result (list jvalue) :=
  match jobs with
  | [] => Ok []
  | job :: jobs' =>
      let? i := getitem job "id" in
      let? ids := job_ids jobs' in
      Ok (i :: ids)
  end.

(** [if len(jobs): ids.extend(job['id'] for job in jobs)]. *)
Definition extend_with_ids (ids : list jvalue) (jobs : list dict) : result (list jvalue) :=
  if (0 <? length jobs)%nat then
    let? new := job_ids jobs in Ok (ids ++ new)
  else Ok ids.

(** The [for project_id in project_ids] loop. *)
Fixpoint collect_job_ids (token : string) (project_ids : list jvalue)
    (pending_job_ids running_job_ids : list jvalue) : M (list jvalue * list jvalue) :=
  match project_ids with
  | [] => ret (pending_job_ids, running_job_ids)
  | project_id :: project_ids' =>
      pending_jobs <- get_pending_jobs project_id token ;;
      running_jobs <- get_running_jobs project_id token ;;
      pending_job_ids' <- lift (extend_with_ids pending_job_ids pending_jobs) ;;
      running_job_ids' <- lift (extend_with_ids running_job_ids running_jobs) ;;
      collect_job_ids token project_ids' pending_job_ids' running_job_ids'
  end.

Definition get_all_pending_and_running_job_ids (token : string)
  : M (list jvalue * list jvalue) :=
  project_ids <- get_all_project_ids token ;;
  collect_job_ids token project_ids [] [].

Definition get_number_of_pending_and_running_jobs (token : string) : M (nat * nat) :=
  ids <- get_all_pending_and_running_job_ids token ;;
  ret (length (fst ids), length (snd ids)).

(** *** Healthy instances *)

(** The [for instance in instances] loop with its counter. *)
Fixpoint count_in_service (instances : list instance) (instances_in_service : Z) : Z :=
  match instances with
  | [] => instances_in_service
  | instance :: instances' =>
      count_in_service instances'
        (if (String.eqb (HealthStatus instance) "Healthy"
             && String.eqb (LifecycleState instance) "InService")%bool
         then instances_in_service + 1
         else instances_in_service)
  end.

Definition get_asg_healthy_instances_in_service : M Z :=
  groups <- describe_auto_scaling_groups [ASG_NAME cfg] ;;
  group <- lift (index groups 0) ;;
  let instances := default [] (Instances group) in
  ret (count_in_service instances 0).

(** *** Load and publication *)

(** The value of [runners_overall_load] in [handler]. *)
Definition runners_overall_load (running_jobs healthy_instances_in_service : Z)
  : result number :=
  if negb (healthy_instances_in_service =? 0) then
    let? n := float_of_int (100 * running_jobs) in
    let? d := float_of_int (healthy_instances_in_service * RUNNERS_PER_INSTANCE cfg) in
    let? q := float_truediv n d in
    Ok (PFloat q)
  else Ok (PInt 100).

Definition metric_data (timestamp : Z) (pending_jobs running_jobs : Z) (load : number)
  : list metric_datum :=
  [ {| MetricName := "NumberOfPendingJobs";
       Dimensions := [("Job Status", "Pending")];
       Timestamp := timestamp;
       Value := PInt pending_jobs;
       Unit := "Count";
       StorageResolution := 60 |};
    {| MetricName := "NumberOfRunningJobs";
       Dimensions := [("Job Status", "Running")];
       Timestamp := timestamp;
       Value := PInt running_jobs;
       Unit := "Count";
       StorageResolution := 60 |};
    {| MetricName := "RunnersOverallLoad";
       Dimensions := [("Runners Overall Load", "OverallLoadPercentage")];
       Timestamp := timestamp;
       Value := load;
       Unit := "Percent";
       StorageResolution := 60 |} ].

Definition handler : M unit :=
  token <- get_parameter (TOKEN_SSM_PATH cfg) true ;;
  counts <- get_number_of_pending_and_running_jobs token ;;
  let pending_jobs := Z.of_nat (fst counts) in
  let running_jobs := Z.of_nat (snd counts) in
  healthy_instances_in_service <- get_asg_healthy_instances_in_service ;;
  load <- lift (runners_overall_load running_jobs healthy_instances_in_service) ;;
  timestamp <- time_time ;;
  put_metric_data "GitLab" (metric_data timestamp pending_jobs running_jobs load).

End Handler.

(** ** Vocabulary of the statements *)

(** An error a boto3 client raises when the request rate was exceeded. *)
Definition rate_limited (e : exn) : Prop :=
  exists response error,
    e = ClientError response /\
    response !! "Error" = Some error /\
    error !! "Code" = Some "RequestLimitExceeded".

(** A client error whose response carries no error code at all. *)
Definition without_code (e : exn) : Prop :=
  exists response,
    e = ClientError response /\
    default ∅ (response !! "Error") !! "Code" = None.

(** The error code the retry predicate reads off a client error's response. *)
Definition error_code (response : gmap string (gmap string string)) : string :=
  default "Unknown" (default ∅ (response !! "Error") !! "Code").

(** The three decorated calls on the backend SDK, each with the script it
    consumes and the request it logs. *)
Inductive backend_call : forall A : Type, M A -> (world -> list (outcome A)) -> sdk_request -> Prop :=
| call_get_parameter Name WithDecryption :
    backend_call string (get_parameter Name WithDecryption) ssm_script
      (GetParameter Name WithDecryption)
| call_put_metric_data Namespace MetricData :
    backend_call unit (put_metric_data Namespace MetricData) cw_script
      (PutMetricData Namespace MetricData)
| call_describe_auto_scaling_groups AutoScalingGroupNames :
    backend_call (list auto_scaling_group)
      (describe_auto_scaling_groups AutoScalingGroupNames) asg_script
      (DescribeAutoScalingGroups AutoScalingGroupNames).

(** [w'] differs from [w] by HTTP traffic only. *)
Definition http_only (w w' : world) : Prop :=
  ssm_script w' = ssm_script w /\
  asg_script w' = asg_script w /\
  cw_script w' = cw_script w /\
  sdk_log w' = sdk_log w /\
  clock w' = clock w.

(** The jobs a job-listing answer stands for: those of its body when the
    status is 200. *)
Definition jobs_of (res : response) : list dict :=
  if status_code res =? 200 then json res else [].

(** The two answers GitLab gives for one project: pending scope, then
    running scope. *)
Definition job_answers (answers : list (response * response)) : list (outcome response) :=
  flat_map (fun a => [Returns (fst a); Returns (snd a)]) answers.

Definition sum_lengths {A} (ls : list (list A)) : nat :=
  fold_right (fun l n => (length l + n)%nat) 0%nat ls.

Definition has_id (d : dict) : Prop := is_Some (d !! "id").

(** An instance counts when both fields have exactly these values. *)
Definition healthy_in_service (i : instance) : Prop :=
  HealthStatus i = "Healthy" /\ LifecycleState i = "InService".

#[global] Instance healthy_in_service_dec (i : instance) : Decision (healthy_in_service i).
Proof. unfold healthy_in_service. apply _. Defined.

(** A float that holds the integer [z] exactly. *)
Definition holds_integer (f : spec_float) (z : Z) : Prop :=
  match f with
  | S754_zero _ => z = 0
  | S754_finite s m e => e <= 0 /\ (if s then Z.neg m else Z.pos m) = z * 2 ^ (- e)
  | _ => False
  end.

(** The double [f] is the quotient [a / b] rounded to a nearest double: zero
    when [a] is zero, and otherwise a normal double [m * 2^e], of the sign of
    the quotient, that lies within half a unit [2^e] of its last place from
    the size of the quotient.  The inequality is the one between the reals,
    multiplied by the size of [b] and by the power of two that clears the
    negative exponent. *)
Definition nearest_double (f : spec_float) (a b : Z) : Prop :=
  match f with
  | S754_zero _ => a = 0
  | S754_finite s m e =>
      Z.pos (digits2_pos m) = 53
      /\ (if s then a * b < 0 else 0 < a * b)
      /\ 2 * Z.abs (Z.pos m * 2 ^ Z.max 0 e * Z.abs b - Z.abs a * 2 ^ Z.max 0 (- e))
         <= 2 ^ Z.max 0 e * Z.abs b
  | _ => False
  end.

(** What a rounding location says of the remainder [r] of a division by
    [D]: where [r / D] lies with respect to one half. *)
Definition loc_matches (l : location) (r D : Z) : Prop :=
  match l with
  | loc_Exact => r = 0
  | loc_Inexact Lt => 0 < r /\ 2 * r < D
  | loc_Inexact Eq => 2 * r = D
  | loc_Inexact Gt => D < 2 * r
  end.

(** The second half of [binary_round_aux]: the mantissa is put back in
    place after a carry. *)
Definition finish (s : bool) (mx e : Z) : spec_float :=
  let '(mrs, e') := shr_fexp prec emax mx e loc_Exact in
  match shr_m mrs with
  | Z0 => S754_zero s
  | Zpos m => if Z.leb e' (Z.sub emax prec) then S754_finite s m e' else S754_infinity s
  | _ => S754_nan
  end.

(** [k] requests in a row that time out. *)
Definition timeouts (k : nat) : list (outcome response) := repeat (Raises Timeout) k.

(** The character [c] occurs in [s]. *)
Fixpoint occurs (c : ascii) (s : string) : bool :=
  match s with
  | EmptyString => false
  | String c' s' => (Ascii.eqb c' c || occurs c s')%bool
  end.

(** The answers to a listing whose pages each come after some requests that
    time out: the number of timeouts stands before each page. *)
Definition slow_answers (pages : list (nat * (response * string))) : list (outcome response) :=
  flat_map (fun p => timeouts (fst p) ++ [Returns (fst (snd p))]) pages.

(** The requests made for such a listing from [link] on: each link once for
    every timeout and once for the page. *)
Fixpoint slow_requests (token link : string) (pages : list (nat * (response * string)))
  : list (string * string) :=
  match pages with
  | [] => []
  | p :: pages' =>
      repeat (link, token) (S (fst p)) ++ slow_requests token (snd (snd p)) pages'
  end.

(** The links requested while the pages [pre] are read, starting at
    [link]: [link] itself and the cursors of all pages of [pre] but the
    last. *)
Definition links_read (link : string) (pre : list (response * string)) : list string :=
  take (length pre) (link :: map snd pre).

(** The link the loop holds after the pages [pre]. *)
Definition link_after (link : string) (pre : list (response * string)) : string :=
  List.last (map snd pre) link.

(** The two requests made for each project, in order. *)
Definition job_requests (cfg : config) (token : string) (project_ids : list jvalue)
  : list (string * string) :=
  flat_map (fun pid => [(jobs_link cfg pid "pending", token);
                        (jobs_link cfg pid "running", token)]) project_ids.

Section Vocabulary.

Variable strptime : string -> option datetime.

(** The time of a project's last activity, when the project carries a
    stamp and the stamp parses. *)
Definition stamp_of (project : dict) : option datetime :=
  match project !! "last_activity_at" with
  | Some (JStr s) => strptime s
  | _ => None
  end.

(** A project as the listing delivers it: an id and a last-activity stamp
    that parses. *)
Definition well_formed (project : dict) : Prop :=
  is_Some (project !! "id") /\ is_Some (stamp_of project).

(** The project was active strictly after [cutoff]. *)
Definition active_after (cutoff : datetime) (project : dict) : bool :=
  match stamp_of project with
  | Some t => cutoff <? t
  | None => false
  end.

Definition id_of (project : dict) : jvalue := default JNull (project !! "id").

(** The ids discovery owes for a run of projects, in order. *)
Definition active_ids (cutoff : datetime) (projects : list dict) : list jvalue :=
  map id_of (filter (fun p => active_after cutoff p = true) projects).

(** A page of the listing that is followed by another one at [link]. *)
Definition inner_page (page : response * string) : Prop :=
  status_code (fst page) = 200 /\
  Forall well_formed (json (fst page)) /\
  exists links, headers_lookup "Links" (fst page) = Some links
                /\ next_link links = Ok (snd page).

(** The page of the listing that ends it. *)
Definition final_page (res : response) : Prop :=
  status_code res = 200 /\
  Forall well_formed (json res) /\
  headers_lookup "Links" res = None.

End Vocabulary.

(** ** Sample data

    A parser for the zero-padded timestamps GitLab prints, with one to six
    digits of fraction, and a few concrete worlds.  The parser is the one the
    examples run with; Python's [strptime] reads these timestamps the same
    way and accepts some unpadded spellings besides. *)

Definition digit (c : ascii) : option Z :=
  let n := nat_of_ascii c in
  if ((48 <=? n)%nat && (n <=? 57)%nat)%bool then Some (Z.of_nat n - 48) else None.

(** The number a run of decimal digits writes. *)
Fixpoint number_of (s : string) (acc : Z) : option Z :=
  match s with
  | EmptyString => Some acc
  | String c s' =>
      match digit c with
      | Some d => number_of s' (10 * acc + d)
      | None => None
      end
  end.

Definition field (s : string) (start len : nat) : option Z :=
  let t := substring start len s in
  if (String.length t =? len)%nat then number_of t 0 else None.

Definition is_leap (y : Z) : bool :=
  ((y mod 4 =? 0) && (negb (y mod 100 =? 0) || (y mod 400 =? 0)))%bool.

Definition days_in_month (y m : Z) : Z :=
  if m =? 2 then (if is_leap y then 29 else 28)
  else if ((m =? 4) || (m =? 6) || (m =? 9) || (m =? 11))%bool then 30 else 31.

Definition days_before_month (y m : Z) : Z :=
  nth (Z.to_nat (m - 1)) [0; 31; 59; 90; 120; 151; 181; 212; 243; 273; 304; 334] 0
  + (if ((2 <? m) && is_leap y)%bool then 1 else 0).

Definition days_before_year (y : Z) : Z :=
  let p := y - 1 in p * 365 + p / 4 - p / 100 + p / 400.

Definition separators_ok (s : string) : bool :=
  match String.get 4 s, String.get 7 s, String.get 10 s, String.get 13 s,
        String.get 16 s, String.get 19 s, String.get (String.length s - 1) s with
  | Some "-"%char, Some "-"%char, Some "T"%char, Some ":"%char,
    Some ":"%char, Some "."%char, Some "Z"%char => true
  | _, _, _, _, _, _, _ => false
  end.

Definition strptime_padded (s : string) : option datetime :=
  let k := (String.length s - 21)%nat in
  if (separators_ok s && (1 <=? k)%nat && (k <=? 6)%nat)%bool then
    y ← field s 0 4; m ← field s 5 2; d ← field s 8 2;
    H ← field s 11 2; M ← field s 14 2; S ← field s 17 2;
    f ← field s 20 k;
    if ((1 <=? y) && (1 <=? m) && (m <=? 12) && (1 <=? d) && (d <=? days_in_month y m)
        && (H <? 24) && (M <? 60) && (S <? 60))%bool
    then
      let days := days_before_year y + days_before_month y m + (d - 1) in
      let seconds := ((days * 24 + H) * 60 + M) * 60 + S in
      Some (seconds * 1000000 + f * 10 ^ (6 - Z.of_nat k))
    else None
  else None.

Definition sample_cfg : config :=
  {| TOKEN_SSM_PATH := "/gitlab/runner/token";
     GITLAB_URI := "https://gitlab.example.com";
     ASG_NAME := "gitlab-runners";
     RUNNERS_PER_INSTANCE := 4;
     NARROW_TO_MEMBERSHIP := false |}.

Definition sample_project (pid : Z) (last_activity_at : string) : dict :=
  <["id" := JInt pid]> (<["last_activity_at" := JStr last_activity_at]> ∅).

Definition sample_job (jid : Z) : dict := <["id" := JInt jid]> ∅.

(** [2020-05-17T12:00:00], the time of the sample invocations. *)
Definition sample_noon : datetime := 63725313600000000.

Definition sample_world (http : list (outcome response)) : world :=
  {| http_script := http;
     ssm_script := [Returns "glpat-sample"];
     asg_script := [];
     cw_script := [];
     http_log := [];
     sdk_log := [];
     clock := sample_noon |}.

(** The header value [<https://x/page2>; rel="next"]. *)
Definition sample_links : string :=
  "<https://x/page2>; rel=" +:+ String (ascii_of_nat 34) ("next" +:+ String (ascii_of_nat 34) EmptyString).

(** A first page: one project active two hours ago, one five hours ago and
    one exactly four hours ago; the listing goes on at the sample link. *)
Definition sample_page1 : response :=
  {| status_code := 200;
     headers := <["links" := sample_links]> ∅;
     json := [ sample_project 1 "2020-05-17T10:00:00.000Z";
               sample_project 2 "2020-05-17T07:00:00.000Z";
               sample_project 3 "2020-05-17T08:00:00.000000Z" ] |}.

(** A last page: one project active a microsecond after the cutoff. *)
Definition sample_page2 : response :=
  {| status_code := 200;
     headers := ∅;
     json := [ sample_project 4 "2020-05-17T08:00:00.000001Z" ] |}.

(** A page with status 200, no project and no header at all. *)
Definition sample_empty_page : response :=
  {| status_code := 200; headers := ∅; json := [] |}.

(** The same page with a Links header whose value is empty. *)
Definition sample_empty_links_page : response :=
  {| status_code := 200; headers := <["links" := EmptyString]> ∅; json := [] |}.

Definition sample_jobs (first : Z) (n : nat) : list dict :=
  map (fun i => sample_job (first + Z.of_nat i)) (seq 0 n).

Definition sample_answer (status : Z) (jobs : list dict) : response :=
  {| status_code := status; headers := ∅; json := jobs |}.

(** A one-page listing of three active projects. *)
Definition sample_three_projects : response :=
  {| status_code := 200;
     headers := ∅;
     json := [ sample_project 11 "2020-05-17T10:00:00.000Z";
               sample_project 12 "2020-05-17T11:00:00.000Z";
               sample_project 13 "2020-05-17T11:30:00.000Z" ] |}.

(** Pending lists of sizes 3, 0 and 5 and running lists of sizes 1, 2 and 0. *)
Definition sample_job_lists : list (response * response) :=
  [ (sample_answer 200 (sample_jobs 100 3), sample_answer 200 (sample_jobs 200 1));
    (sample_answer 200 (sample_jobs 110 0), sample_answer 200 (sample_jobs 210 2));
    (sample_answer 200 (sample_jobs 120 5), sample_answer 200 (sample_jobs 220 0)) ].

(** The same with the second project's pending listing and the third
    project's running listing answered with status 500. *)
Definition sample_job_lists_failing : list (response * response) :=
  [ (sample_answer 200 (sample_jobs 100 3), sample_answer 200 (sample_jobs 200 1));
    (sample_answer 500 [], sample_answer 200 (sample_jobs 210 2));
    (sample_answer 200 (sample_jobs 120 5), sample_answer 500 (sample_jobs 220 4)) ].

(** The client error of an exceeded request rate, and a client error whose
    response has no [Error] entry. *)
Definition sample_rate_limit_error : exn :=
  ClientError (<["Error" := <["Code" := "RequestLimitExceeded"]> ∅]> ∅).

Definition sample_bare_error : exn := ClientError ∅.

(** A world whose parameter store does [ssm]. *)
Definition sample_ssm_world (ssm : list (outcome string)) : world :=
  {| http_script := [];
     ssm_script := ssm;
     asg_script := [];
     cw_script := [];
     http_log := [];
     sdk_log := [];
     clock := sample_noon |}.

(** A configuration that gives the instances no runner at all. *)
Definition sample_cfg_without_runners : config :=
  {| TOKEN_SSM_PATH := "/gitlab/runner/token";
     GITLAB_URI := "https://gitlab.example.com";
     ASG_NAME := "gitlab-runners";
     RUNNERS_PER_INSTANCE := 0;
     NARROW_TO_MEMBERSHIP := false |}.

(** The double 50.0: [7036874417766400 * 2^-47]. *)
Definition fifty : spec_float := S754_finite false 7036874417766400 (-47).

(** Three instances: one counted, one still pending, one unhealthy. *)
Definition sample_fleet : list instance :=
  [ {| InstanceId := "i-01"; HealthStatus := "Healthy"; LifecycleState := "InService" |};
    {| InstanceId := "i-02"; HealthStatus := "Healthy"; LifecycleState := "Pending" |};
    {| InstanceId := "i-03"; HealthStatus := "Unhealthy"; LifecycleState := "InService" |} ].

Definition sample_fleet_world : world :=
  {| http_script := [];
     ssm_script := [];
     asg_script := [Returns [ {| Instances := Some sample_fleet |} ]];
     cw_script := [];
     http_log := [];
     sdk_log := [];
     clock := sample_noon |}.


(** A world for a whole invocation: the token, three active projects with
    their job lists, the sample fleet and a metrics backend that accepts. *)
Definition sample_invocation (jobs : list (response * response)) : world :=
  {| http_script := Returns sample_three_projects :: job_answers jobs;
     ssm_script := [Returns "glpat-sample"];
     asg_script := [Returns [ {| Instances := Some sample_fleet |} ]];
     cw_script := [Returns tt];
     http_log := [];
     sdk_log := [];
     clock := sample_noon |}.

(** A world whose parameter store is out of reach. *)
Definition sample_unreachable_store : world :=
  {| http_script := [Returns sample_three_projects];
     ssm_script := [Raises EndpointConnectionError];
     asg_script := [Returns [ {| Instances := Some sample_fleet |} ]];
     cw_script := [Returns tt];
     http_log := [];
     sdk_log := [];
     clock := sample_noon |}.

(** A page with a project that has no id, after a good one. *)
Definition sample_page_without_id : response :=
  {| status_code := 200;
     headers := ∅;
     json := [ sample_project 1 "2020-05-17T10:00:00.000Z";
               <["last_activity_at" := JStr "2020-05-17T10:00:00.000Z"]> ∅ ] |}.

(** A job listing with a job that has no id, after a good one. *)
Definition sample_jobs_without_id : response :=
  sample_answer 200 [sample_job 100; ∅].

(** A world whose autoscaling service does [asg]. *)
Definition sample_asg_world (asg : list (outcome (list auto_scaling_group))) : world :=
  {| http_script := [];
     ssm_script := [];
     asg_script := asg;
     cw_script := [];
     http_log := [];
     sdk_log := [];
     clock := sample_noon |}.

(** * Properties *)

(** ** The retry decorator *)

Section Retry.

Context {A : Type} (catches giveup : exn -> bool) (target : M A).

Lemma retry_exception_returns more w a w' :
  target w = (Ok a, w') ->
  retry_exception catches giveup more target w = (Ok a, w').
Proof. intros H. destruct more; simpl; rewrite H; reflexivity. Qed.

Lemma retry_exception_passes more w e w' :
  target w = (Raise e, w') ->
  catches e = false \/ giveup e = true ->
  retry_exception catches giveup more target w = (Raise e, w').
Proof.
  intros H [Hc | Hg]; destruct more; simpl; rewrite H.
  all: destruct (catches e); try reflexivity; try discriminate.
  all: rewrite Hg; reflexivity.
Qed.

Lemma retry_exception_again more w e w' :
  target w = (Raise e, w') ->
  catches e = true -> giveup e = false ->
  retry_exception catches giveup (S more) target w
  = retry_exception catches giveup more target w'.
Proof. intros H Hc Hg. simpl. rewrite H, Hc, Hg. reflexivity. Qed.

(** The world a retried call leaves behind is the one that [k] calls of the
    target in a row leave, for some [k] between one and the allowed number. *)
Lemma retry_exception_calls more w :
  exists k : nat,
    (1 <= k <= S more)%nat /\
    snd (retry_exception catches giveup more target w)
    = Nat.iter k (fun w0 => snd (target w0)) w.
Proof.
  revert w. induction more as [|more IH]; intros w.
  - exists 1%nat. split; [lia|]. simpl.
    destruct (target w) as [[a|e|] w']; simpl; try reflexivity.
    destruct (catches e), (giveup e); reflexivity.
  - simpl. destruct (target w) as [[a|e|] w'] eqn:Ht.
    1,3: exists 1%nat; split; [lia|]; simpl; rewrite Ht; reflexivity.
    destruct (catches e); [destruct (giveup e)|].
    1,3: exists 1%nat; split; [lia|]; simpl; rewrite Ht; reflexivity.
    destruct (IH w') as (k & Hk & Hw). exists (S k). split; [lia|].
    rewrite Hw. rewrite Nat.iter_succ_r. rewrite Ht. reflexivity.
Qed.

End Retry.

(** ** Running the monad *)

Lemma bind_returns {A B} (c : M A) (k : A -> M B) w a w' :
  c w = (Ok a, w') -> bind c k w = k a w'.
Proof. intros H. unfold bind. rewrite H. reflexivity. Qed.

Lemma bind_raises {A B} (c : M A) (k : A -> M B) w e w' :
  c w = (Raise e, w') -> bind c k w = (Raise e, w').
Proof. intros H. unfold bind. rewrite H. reflexivity. Qed.

Lemma bind_lift_ok {A B} (a : A) (k : A -> M B) w :
  bind (lift (Ok a)) k w = k a w.
Proof. reflexivity. Qed.

Lemma bind_lift_raise {A B} (e : exn) (k : A -> M B) w :
  bind (lift (Raise e)) k w = (Raise e, w).
Proof. reflexivity. Qed.

Lemma last_cons {A} (x d : A) (l : list A) : List.last (x :: l) d = List.last l x.
Proof.
  revert x d. induction l as [|y l IH]; intros x d; [reflexivity|].
  change (List.last (x :: y :: l) d) with (List.last (y :: l) d).
  rewrite !IH. reflexivity.
Qed.

(** ** Calls on the scripted services *)

Lemma next_outcome_returns {A} (unreachable : exn) (a : A) rest :
  next_outcome unreachable (Returns a :: rest) = Ok a.
Proof. reflexivity. Qed.

Lemma next_outcome_raises {A} (unreachable : exn) (e : exn) (rest : list (outcome A)) :
  next_outcome unreachable (Raises e :: rest) = Raise e.
Proof. reflexivity. Qed.

Lemma http_only_refl w : http_only w w.
Proof. repeat split. Qed.

Lemma http_only_trans w1 w2 w3 : http_only w1 w2 -> http_only w2 w3 -> http_only w1 w3.
Proof. unfold http_only. intuition congruence. Qed.

Lemma tail_drop {A} (k : nat) (l : list A) : tail (drop k l) = drop (S k) l.
Proof.
  revert l. induction k as [|k IH]; intros [|x l]; try reflexivity.
  simpl. apply IH.
Qed.

(** An HTTP GET that is answered at once. *)
Lemma get_request_returns url token res rest w :
  http_script w = Returns res :: rest ->
  exists w',
    get_request url token w = (Ok res, w') /\
    http_script w' = rest /\
    http_log w' = http_log w ++ [(url, token)] /\
    http_only w w'.
Proof.
  intros H. eexists. split.
  - unfold get_request, on_exception. apply retry_exception_returns.
    unfold requests_get. rewrite H. reflexivity.
  - simpl. repeat split.
Qed.

(** HTTP GETs leave the other services alone and only add to the log, with
    at least the request itself. *)
Lemma iter_requests_get url token k w :
  let w' := Nat.iter k (fun w0 => snd (requests_get url token w0)) w in
  http_only w w' /\
  http_log w' = http_log w ++ repeat (url, token) k /\
  http_script w' = drop k (http_script w).
Proof.
  induction k as [|k IH]; simpl.
  - rewrite app_nil_r, drop_0. split; [apply http_only_refl|auto].
  - destruct IH as (Ho & Hl & Hs). simpl in *. rewrite Hl, Hs. split; [exact Ho|]. split.
    + rewrite <- app_assoc. f_equal. symmetry. apply repeat_cons.
    + apply tail_drop.
Qed.

(** Whatever the answers, an HTTP GET with its retries makes between one and
    [MAX_RETRIES] requests for the same URL and nothing else. *)
Lemma get_request_world url token w :
  exists k : nat,
    (1 <= k <= MAX_RETRIES)%nat /\
    http_log (snd (get_request url token w)) = http_log w ++ repeat (url, token) k /\
    http_script (snd (get_request url token w)) = drop k (http_script w) /\
    http_only w (snd (get_request url token w)).
Proof.
  unfold get_request, on_exception.
  destruct (retry_exception_calls is_Timeout (fun _ => false) (requests_get url token)
              (MAX_RETRIES - 1) w) as (k & Hk & Hw).
  exists k. split; [exact Hk|]. rewrite Hw.
  destruct (iter_requests_get url token k w) as (Ho & Hl & Hs). auto.
Qed.

(** A GET that returns has taken at least one answer off the script. *)
Lemma get_request_shrinks url token w res w' :
  get_request url token w = (Ok res, w') ->
  (length (http_script w') < length (http_script w))%nat.
Proof.
  unfold get_request, on_exception. generalize (MAX_RETRIES - 1)%nat as more.
  intros more. revert w. induction more as [|more IH]; intros w; simpl.
  - destruct (http_script w) as [|[r|e] script] eqn:Hs; simpl.
    + discriminate.
    + intros [= <- <-]. simpl. lia.
    + destruct (is_Timeout e); discriminate.
  - destruct (http_script w) as [|[r|e] script] eqn:Hs; simpl.
    + discriminate.
    + intros [= <- <-]. simpl. lia.
    + destruct (is_Timeout e); [|discriminate].
      intros H. apply IH in H. simpl in H. lia.
Qed.

Lemma get_request_not_cut url token w : fst (get_request url token w) <> OutOfFuel.
Proof.
  unfold get_request, on_exception. generalize (MAX_RETRIES - 1)%nat as more.
  intros more. revert w. induction more as [|more IH]; intros w; simpl.
  - destruct (http_script w) as [|[r|e] script]; simpl; try discriminate.
    destruct (is_Timeout e); discriminate.
  - destruct (http_script w) as [|[r|e] script]; simpl; try discriminate.
    destruct (is_Timeout e); [apply IH|discriminate].
Qed.

(** ** Project discovery *)

Section Discovery.

Variable strptime : string -> option datetime.
Variable cfg : config.

Lemma active_ids_app cutoff (ps qs : list dict) :
  active_ids strptime cutoff (ps ++ qs)
  = active_ids strptime cutoff ps ++ active_ids strptime cutoff qs.
Proof. unfold active_ids. rewrite filter_app, map_app. reflexivity. Qed.

(** One page: the ids of the projects active after the cutoff are appended,
    in the order of the page. *)
Lemma scan_projects_spec cutoff (projects : list dict) (project_ids : list jvalue) :
  Forall (well_formed strptime) projects ->
  scan_projects strptime cutoff projects project_ids
  = Ok (project_ids ++ active_ids strptime cutoff projects).
Proof.
  intros Hwf. revert project_ids.
  induction Hwf as [|p ps [[pid Hid] [t Ht]] _ IH]; intros project_ids.
  - simpl. rewrite app_nil_r. reflexivity.
  - assert (Hlast : last_activity_of strptime p = Ok t).
    { unfold stamp_of in Ht. unfold last_activity_of, getitem.
      destruct (p !! "last_activity_at") as [[| |s]|]; try discriminate.
      simpl. rewrite Ht. reflexivity. }
    cbn [scan_projects]. unfold getitem at 1. rewrite Hid. cbn [rbind].
    rewrite Hlast. cbn [rbind]. rewrite IH. f_equal. unfold active_ids. rewrite filter_cons.
    assert (Ha : active_after strptime cutoff p = (t >? cutoff)).
    { unfold active_after. rewrite Ht. symmetry. apply Z.gtb_ltb. }
    rewrite Ha. destruct (t >? cutoff) eqn:Hc.
    + rewrite decide_True by reflexivity. simpl. unfold id_of at 2. rewrite Hid. simpl.
      rewrite <- app_assoc. reflexivity.
    + rewrite decide_False by discriminate. reflexivity.
Qed.

(** The loop reads the inner pages one by one and follows their cursors. *)
Lemma project_pages_inner cutoff token (pre : list (response * string)) :
  Forall (inner_page strptime) pre ->
  forall fuel link project_ids script w,
    http_script w = map (fun page => Returns (fst page)) pre ++ script ->
    exists w',
      project_pages strptime (length pre + fuel) cutoff token link project_ids w
      = project_pages strptime fuel cutoff token (link_after link pre)
          (project_ids ++ active_ids strptime cutoff (flat_map (fun page => json (fst page)) pre)) w'
      /\ http_script w' = script
      /\ http_log w' = http_log w ++ map (fun l => (l, token)) (links_read link pre)
      /\ http_only w w'.
Proof.
  induction 1 as [|[res next] pre (Hst & Hwf & links & Hl & Hn) _ IH];
    intros fuel link project_ids script w Hs.
  - exists w. simpl. unfold links_read, link_after. simpl.
    rewrite !app_nil_r. repeat split. exact Hs.
  - simpl in Hs, Hst, Hwf, Hl, Hn.
    destruct (get_request_returns link token res _ w Hs) as (w1 & Hget & Hs1 & Hl1 & Ho1).
    destruct (IH fuel next (project_ids ++ active_ids strptime cutoff (json res)) script w1 Hs1)
      as (w' & Hrun & Hs' & Hl' & Ho').
    exists w'. split; [|split; [exact Hs'|split; [|eapply http_only_trans; eassumption]]].
    + change (length ((res, next) :: pre) + fuel)%nat with (S (length pre + fuel)).
      cbn [project_pages]. rewrite (bind_returns _ _ _ _ _ Hget).
      rewrite Hst. cbn [Z.eqb Pos.eqb negb].
      rewrite (scan_projects_spec _ _ _ Hwf), bind_lift_ok, Hl, Hn, bind_lift_ok.
      rewrite Hrun. unfold link_after. cbn [map snd flat_map fst].
      rewrite last_cons, active_ids_app, app_assoc. reflexivity.
    + rewrite Hl', Hl1, <- app_assoc. reflexivity.
Qed.

Lemma links_read_after link (pre : list (response * string)) :
  links_read link pre ++ [link_after link pre] = link :: map snd pre.
Proof.
  unfold links_read, link_after. revert link.
  induction pre as [|[res next] pre IH]; intros link; [reflexivity|].
  cbn [length map snd]. rewrite last_cons. cbn [take]. rewrite <- app_comm_cons.
  f_equal. apply IH.
Qed.

(** Discovery over a listing whose pages but the last are inner pages: the
    last page decides how it ends. *)
Lemma get_all_project_ids_run token (pre : list (response * string)) last script w :
  Forall (inner_page strptime) pre ->
  http_script w = map (fun page => Returns (fst page)) pre ++ Returns last :: script ->
  exists w',
    http_script w' = script
    /\ http_log w' = http_log w ++ map (fun l => (l, token)) (first_link cfg :: map snd pre)
    /\ http_only w w'
    /\ (final_page strptime last ->
        get_all_project_ids strptime cfg token w
        = (Ok (active_ids strptime (clock w - timedelta_hours 4)
                 (flat_map (fun page => json (fst page)) pre ++ json last)), w'))
    /\ (status_code last <> 200 ->
        get_all_project_ids strptime cfg token w
        = (Raise (Exception "Error retrieving all the projects"), w')).
Proof.
  intros Hpre Hs.
  set (cutoff := clock w - timedelta_hours 4).
  assert (Hrun : get_all_project_ids strptime cfg token w
                 = project_pages strptime (length pre + S (S (length script))) cutoff token
                     (first_link cfg) [] w).
  { unfold get_all_project_ids, bind, utcnow. fold cutoff. f_equal.
    rewrite Hs, length_app, length_map. simpl. lia. }
  destruct (project_pages_inner cutoff token pre Hpre (S (S (length script)))
              (first_link cfg) [] _ w Hs) as (w1 & Hrun1 & Hs1 & Hl1 & Ho1).
  rewrite Hrun1 in Hrun. cbn [app] in Hrun.
  destruct (get_request_returns (link_after (first_link cfg) pre) token last _ w1 Hs1)
    as (w2 & Hget & Hs2 & Hl2 & Ho2).
  exists w2. split; [exact Hs2|]. split; [|split; [eapply http_only_trans; eassumption|]].
  - rewrite Hl2, Hl1, <- app_assoc, <- links_read_after, map_app. reflexivity.
  - split.
    + intros (Hst & Hwf & Hlinks). rewrite Hrun. cbn [project_pages].
      rewrite (bind_returns _ _ _ _ _ Hget).
      rewrite Hst. cbn [Z.eqb Pos.eqb negb].
      rewrite (scan_projects_spec _ _ _ Hwf), bind_lift_ok, Hlinks, active_ids_app.
      reflexivity.
    + intros Hst. rewrite Hrun. cbn [project_pages].
      rewrite (bind_returns _ _ _ _ _ Hget).
      apply Z.eqb_neq in Hst. rewrite Hst. reflexivity.
Qed.

Lemma scan_projects_not_cut cutoff (projects : list dict) project_ids :
  scan_projects strptime cutoff projects project_ids <> OutOfFuel.
Proof.
  revert project_ids. induction projects as [|p ps IH]; intros project_ids; [discriminate|].
  cbn [scan_projects]. unfold getitem at 1. destruct (p !! "id"); [|discriminate].
  cbn [rbind]. unfold last_activity_of, getitem.
  destruct (p !! "last_activity_at") as [[| |s]|]; try discriminate.
  cbn [rbind]. destruct (strptime s); [apply IH|discriminate].
Qed.

Lemma next_link_not_cut links : next_link links <> OutOfFuel.
Proof.
  unfold next_link, index. destruct (split "<" links !! 1%nat); [|discriminate].
  cbn [rbind]. destruct (split ">" _ !! 0%nat); discriminate.
Qed.

(** With more rounds allowed than answers are left, the loop ends by itself. *)
Lemma project_pages_not_cut cutoff token fuel link project_ids w :
  (length (http_script w) < fuel)%nat ->
  fst (project_pages strptime fuel cutoff token link project_ids w) <> OutOfFuel.
Proof.
  revert link project_ids w. induction fuel as [|fuel IH]; intros link project_ids w Hf; [lia|].
  cbn [project_pages]. unfold bind at 1.
  pose proof (get_request_not_cut link token w) as Hcut.
  destruct (get_request link token w) as [[res|e|] w1] eqn:Hget; simpl in Hcut;
    [|discriminate|congruence].
  apply get_request_shrinks in Hget.
  destruct (negb (status_code res =? 200)); [discriminate|].
  pose proof (scan_projects_not_cut cutoff (json res) project_ids) as Hscan.
  destruct (scan_projects strptime cutoff (json res) project_ids) as [ids|e|];
    [|discriminate|congruence].
  rewrite bind_lift_ok. destruct (headers_lookup "Links" res) as [links|]; [|discriminate].
  pose proof (next_link_not_cut links) as Hnext.
  destruct (next_link links) as [link'|e|]; [|discriminate|congruence].
  rewrite bind_lift_ok. apply IH. lia.
Qed.

(** The loop only adds to the log of requests, and what it adds starts with
    the request for the link it was given. *)
Lemma project_pages_log cutoff token fuel link project_ids w :
  exists l,
    http_log (snd (project_pages strptime fuel cutoff token link project_ids w))
    = http_log w ++ l
    /\ (fuel <> 0%nat -> exists l', l = (link, token) :: l').
Proof.
  revert link project_ids w. induction fuel as [|fuel IH]; intros link project_ids w.
  - exists []. simpl. rewrite app_nil_r. split; [reflexivity|congruence].
  - destruct (get_request_world link token w) as (k & Hk & Hl & _).
    assert (Hfirst : forall l0, exists l',
               repeat (link, token) k ++ l0 = (link, token) :: l').
    { intros l0. destruct k as [|k]; [lia|]. simpl. eauto. }
    assert (Hstop : exists l,
               http_log (snd (get_request link token w)) = http_log w ++ l
               /\ (S fuel <> 0%nat -> exists l', l = (link, token) :: l')).
    { exists (repeat (link, token) k ++ []). rewrite app_nil_r.
      split; [exact Hl|]. intros _. rewrite <- (app_nil_r (repeat _ _)). apply Hfirst. }
    cbn [project_pages]. unfold bind at 1.
    destruct (get_request link token w) as [[res|e|] w1] eqn:Hget; simpl in Hl, Hstop;
      try exact Hstop.
    destruct (negb (status_code res =? 200)); [exact Hstop|].
    destruct (scan_projects strptime cutoff (json res) project_ids) as [ids|e|];
      try exact Hstop.
    rewrite bind_lift_ok. destruct (headers_lookup "Links" res) as [links|];
      [|exact Hstop].
    destruct (next_link links) as [link'|e|]; try exact Hstop.
    rewrite bind_lift_ok.
    destruct (IH link' ids w1) as (l & Hl' & _).
    exists (repeat (link, token) k ++ l). rewrite Hl', Hl, <- app_assoc.
    split; [reflexivity|]. intros _. apply Hfirst.
Qed.

End Discovery.

(** ** Job aggregation *)

Section Aggregation.

Variable cfg : config.

Lemma id_of_some (d : dict) (i : jvalue) : d !! "id" = Some i -> id_of d = i.
Proof. intros H. unfold id_of. rewrite H. reflexivity. Qed.

Lemma job_ids_spec (jobs : list dict) :
  Forall has_id jobs -> job_ids jobs = Ok (map id_of jobs).
Proof.
  induction 1 as [|job jobs [i Hi] _ IH]; [reflexivity|].
  cbn [job_ids map]. unfold getitem. rewrite Hi, IH. cbn [rbind].
  rewrite (id_of_some _ _ Hi). reflexivity.
Qed.

Lemma extend_with_ids_spec (ids : list jvalue) (jobs : list dict) :
  Forall has_id jobs -> extend_with_ids ids jobs = Ok (ids ++ map id_of jobs).
Proof.
  intros H. unfold extend_with_ids. destruct jobs as [|job jobs].
  - simpl. rewrite app_nil_r. reflexivity.
  - rewrite (job_ids_spec _ H). reflexivity.
Qed.

(** A job listing that is answered at once yields the jobs of the answer:
    none when the status is not 200. *)
Lemma get_pending_jobs_returns project_id token res rest w :
  http_script w = Returns res :: rest ->
  exists w',
    get_pending_jobs cfg project_id token w = (Ok (jobs_of res), w') /\
    http_script w' = rest /\
    http_log w' = http_log w ++ [(jobs_link cfg project_id "pending", token)] /\
    http_only w w'.
Proof.
  intros Hs.
  destruct (get_request_returns (jobs_link cfg project_id "pending") token res _ w Hs)
    as (w' & Hget & Hrest). exists w'. split; [|exact Hrest].
  unfold get_pending_jobs. rewrite (bind_returns _ _ _ _ _ Hget).
  unfold jobs_of. destruct (status_code res =? 200); reflexivity.
Qed.

Lemma get_running_jobs_returns project_id token res rest w :
  http_script w = Returns res :: rest ->
  exists w',
    get_running_jobs cfg project_id token w = (Ok (jobs_of res), w') /\
    http_script w' = rest /\
    http_log w' = http_log w ++ [(jobs_link cfg project_id "running", token)] /\
    http_only w w'.
Proof.
  intros Hs.
  destruct (get_request_returns (jobs_link cfg project_id "running") token res _ w Hs)
    as (w' & Hget & Hrest). exists w'. split; [|exact Hrest].
  unfold get_running_jobs. rewrite (bind_returns _ _ _ _ _ Hget).
  unfold jobs_of. destruct (status_code res =? 200); reflexivity.
Qed.

(** The loop over the projects gathers the ids of all jobs answered, project
    by project, whatever the status of each answer. *)
Lemma collect_job_ids_spec token (answers : list (response * response)) :
  Forall (fun a => Forall has_id (jobs_of (fst a)) /\ Forall has_id (jobs_of (snd a))) answers ->
  forall (project_ids pending running : list jvalue) rest w,
    length project_ids = length answers ->
    http_script w = job_answers answers ++ rest ->
    exists w',
      collect_job_ids cfg token project_ids pending running w
      = (Ok (pending ++ map id_of (flat_map (fun a => jobs_of (fst a)) answers),
             running ++ map id_of (flat_map (fun a => jobs_of (snd a)) answers)), w') /\
      http_script w' = rest /\
      http_log w' = http_log w ++ job_requests cfg token project_ids /\
      http_only w w'.
Proof.
  induction 1 as [|[p r] answers [Hp Hr] _ IH];
    intros [|pid project_ids] pending running rest w Hlen Hs; try discriminate.
  - exists w. simpl. rewrite !app_nil_r. repeat split. exact Hs.
  - simpl in Hp, Hr, Hs. injection Hlen as Hlen.
    destruct (get_pending_jobs_returns pid token p _ w Hs) as (w1 & Hg1 & Hs1 & Hl1 & Ho1).
    destruct (get_running_jobs_returns pid token r _ w1 Hs1) as (w2 & Hg2 & Hs2 & Hl2 & Ho2).
    destruct (IH project_ids (pending ++ map id_of (jobs_of p))
                (running ++ map id_of (jobs_of r)) rest w2 Hlen Hs2)
      as (w' & Hrun & Hs' & Hl' & Ho').
    exists w'. split; [|split; [exact Hs'|split]].
    + cbn [collect_job_ids]. rewrite (bind_returns _ _ _ _ _ Hg1).
      rewrite (bind_returns _ _ _ _ _ Hg2).
      rewrite (extend_with_ids_spec _ _ Hp), bind_lift_ok.
      rewrite (extend_with_ids_spec _ _ Hr), bind_lift_ok.
      rewrite Hrun. cbn [flat_map fst snd]. rewrite !map_app, !app_assoc. reflexivity.
    + rewrite Hl', Hl2, Hl1. cbn [job_requests flat_map]. rewrite <- !app_assoc. reflexivity.
    + eapply http_only_trans; [|exact Ho']. eapply http_only_trans; eassumption.
Qed.

Lemma length_flat_map_sum {A B} (f : A -> list B) (l : list A) :
  length (flat_map f l) = sum_lengths (map f l).
Proof.
  induction l as [|x l IH]; [reflexivity|].
  cbn [flat_map map sum_lengths fold_right]. rewrite length_app, IH. reflexivity.
Qed.

End Aggregation.

(** ** Calls on the backend SDK *)

Lemma rate_limited_retried e :
  rate_limited e -> is_ClientError e = true /\ no_request_limit_exceeded_code e = false.
Proof.
  intros (response & error & -> & He & Hc). simpl. rewrite He. simpl. rewrite Hc. auto.
Qed.

Section Scripted.

(** A target that takes its outcome off [script] and logs [request]. *)
Context {A : Type} (target : M A) (script : world -> list (outcome A)) (request : sdk_request).

Hypothesis target_outcome :
  forall w, fst (target w) = next_outcome EndpointConnectionError (script w).
Hypothesis target_script : forall w, script (snd (target w)) = tail (script w).
Hypothesis target_log : forall w, sdk_log (snd (target w)) = sdk_log w ++ [request].

Lemma target_run w : target w = (next_outcome EndpointConnectionError (script w), snd (target w)).
Proof. rewrite <- target_outcome. destruct (target w); reflexivity. Qed.

Lemma iter_target k w :
  let w' := Nat.iter k (fun w0 => snd (target w0)) w in
  sdk_log w' = sdk_log w ++ repeat request k /\ script w' = drop k (script w).
Proof.
  induction k as [|k [Hl Hs]]; simpl.
  - rewrite app_nil_r, drop_0. auto.
  - rewrite target_log, target_script, Hl, Hs, <- app_assoc, tail_drop. split; [|reflexivity].
    f_equal. symmetry. apply repeat_cons.
Qed.

(** Retried errors followed by a result: the result comes back after one
    call per error and one more. *)
Lemma retried_then_returns catches giveup errs v rest more w :
  Forall (fun e => catches e = true /\ giveup e = false) errs ->
  (length errs <= more)%nat ->
  script w = map Raises errs ++ Returns v :: rest ->
  exists w',
    retry_exception catches giveup more target w = (Ok v, w') /\
    sdk_log w' = sdk_log w ++ repeat request (S (length errs)) /\
    script w' = rest.
Proof.
  intros Herrs. revert more w.
  induction Herrs as [|e errs [Hc Hg] _ IH]; intros more w Hlen Hs.
  - exists (snd (target w)). split; [|split].
    + apply retry_exception_returns. rewrite target_run, Hs. reflexivity.
    + apply target_log.
    + rewrite target_script, Hs. reflexivity.
  - destruct more as [|more]; [simpl in Hlen; lia|].
    destruct (IH more (snd (target w))) as (w' & Hrun & Hl & Hs').
    { simpl in Hlen. lia. } { rewrite target_script, Hs. reflexivity. }
    exists w'. split; [|split; [|exact Hs']].
    + rewrite <- Hrun. apply (retry_exception_again _ _ _ _ _ e); [|exact Hc|exact Hg].
      rewrite target_run, Hs. reflexivity.
    + rewrite Hl, target_log, <- app_assoc. reflexivity.
Qed.

(** An error that is not to be retried comes back from the first call. *)
Lemma gives_up_at_once catches giveup e rest more w :
  catches e = false \/ giveup e = true ->
  script w = Raises e :: rest ->
  exists w',
    retry_exception catches giveup more target w = (Raise e, w') /\
    sdk_log w' = sdk_log w ++ [request] /\
    script w' = rest.
Proof.
  intros He Hs. exists (snd (target w)). split; [|split].
  - apply retry_exception_passes; [|exact He]. rewrite target_run, Hs. reflexivity.
  - apply target_log.
  - rewrite target_script, Hs. reflexivity.
Qed.

(** Never more calls than one plus the retries allowed. *)
Lemma calls_bounded catches giveup more w :
  exists k : nat,
    (1 <= k <= S more)%nat /\
    sdk_log (snd (retry_exception catches giveup more target w))
    = sdk_log w ++ repeat request k.
Proof.
  destruct (retry_exception_calls catches giveup target more w) as (k & Hk & Hw).
  exists k. split; [exact Hk|]. rewrite Hw. apply iter_target.
Qed.

End Scripted.

(** Each of the three decorated calls is the retry loop over a scripted
    target. *)
Lemma backend_call_scripted A wrapper script request :
  backend_call A wrapper script request ->
  exists target : M A,
    wrapper = retry_exception is_ClientError no_request_limit_exceeded_code 7 target /\
    (forall w, fst (target w) = next_outcome EndpointConnectionError (script w)) /\
    (forall w, script (snd (target w)) = tail (script w)) /\
    (forall w, sdk_log (snd (target w)) = sdk_log w ++ [request]).
Proof.
  intros [n d|ns md|names]; eexists; (split; [reflexivity|]); repeat split.
Qed.

(** A client error with another code than the rate-limit one, whether given
    or defaulted, leaves a decorated call after exactly one attempt. *)
Lemma backend_call_gives_up A wrapper script request response rest w :
  backend_call A wrapper script request ->
  error_code response <> "RequestLimitExceeded" ->
  script w = Raises (ClientError response) :: rest ->
  exists w',
    wrapper w = (Raise (ClientError response), w') /\
    sdk_log w' = sdk_log w ++ [request] /\
    script w' = rest.
Proof.
  intros Hcall Hcode Hs.
  destruct (backend_call_scripted _ _ _ _ Hcall) as (target & -> & Ho & Ht & Hl).
  apply (gives_up_at_once target script request Ho Ht Hl); [|exact Hs].
  right. simpl. fold (error_code response).
  apply negb_true_iff. apply String.eqb_neq. exact Hcode.
Qed.

(** The parameter fetch when the store answers at once. *)
Lemma get_parameter_returns Name WithDecryption token rest w :
  ssm_script w = Returns token :: rest ->
  exists w',
    get_parameter Name WithDecryption w = (Ok token, w') /\
    http_script w' = http_script w /\
    http_log w' = http_log w /\
    clock w' = clock w /\
    asg_script w' = asg_script w /\
    cw_script w' = cw_script w /\
    sdk_log w' = sdk_log w ++ [GetParameter Name WithDecryption].
Proof.
  intros Hs. eexists. split.
  - unfold get_parameter, on_exception. apply retry_exception_returns.
    unfold ssm_get_parameter. rewrite Hs. reflexivity.
  - simpl. repeat split.
Qed.

(** ** Healthy instances *)

(** The test of the loop is the conjunction of the two equalities. *)
Lemma healthy_in_service_test (i : instance) :
  (String.eqb (HealthStatus i) "Healthy" && String.eqb (LifecycleState i) "InService")%bool
  = bool_decide (healthy_in_service i).
Proof.
  unfold healthy_in_service.
  destruct (String.eqb_spec (HealthStatus i) "Healthy") as [Hh|Hh];
    destruct (String.eqb_spec (LifecycleState i) "InService") as [Hl|Hl]; simpl;
    symmetry; first [apply bool_decide_eq_true; tauto | apply bool_decide_eq_false; tauto].
Qed.

Lemma count_in_service_spec (instances : list instance) (n : Z) :
  count_in_service instances n
  = n + Z.of_nat (length (filter healthy_in_service instances)).
Proof.
  revert n. induction instances as [|i instances IH]; intros n.
  - simpl. lia.
  - cbn [count_in_service]. rewrite IH, healthy_in_service_test, filter_cons.
    destruct (decide (healthy_in_service i)) as [Hi|Hi].
    + rewrite bool_decide_eq_true_2 by exact Hi. simpl length. lia.
    + rewrite bool_decide_eq_false_2 by exact Hi. lia.
Qed.

(** ** Floats *)

Lemma digits2_pos_iter_xO (k m : positive) :
  digits2_pos (Pos.iter xO m k) = (digits2_pos m + k)%positive.
Proof.
  induction k as [|k IH] using Pos.peano_ind.
  - simpl. lia.
  - rewrite Pos.iter_succ. simpl. rewrite IH. lia.
Qed.

Lemma Zpos_iter_xO (k m : positive) :
  Z.pos (Pos.iter xO m k) = Z.pos m * 2 ^ Z.pos k.
Proof.
  induction k as [|k IH] using Pos.peano_ind.
  - simpl. lia.
  - rewrite Pos.iter_succ, Pos2Z.inj_succ, Z.pow_succ_r by lia.
    rewrite Pos2Z.inj_xO, IH. ring.
Qed.

Lemma digits2_pos_le (m : positive) (n : Z) :
  0 <= n -> Z.pos m < 2 ^ n -> Z.pos (digits2_pos m) <= n.
Proof.
  revert n. induction m as [m IH|m IH|]; intros n Hn H; simpl.
  - assert (n <> 0) by (intros ->; simpl in H; lia).
    replace n with (Z.succ (n - 1)) in H by lia. rewrite Z.pow_succ_r in H by lia.
    specialize (IH (n - 1)). lia.
  - assert (n <> 0) by (intros ->; simpl in H; lia).
    replace n with (Z.succ (n - 1)) in H by lia. rewrite Z.pow_succ_r in H by lia.
    specialize (IH (n - 1)). lia.
  - assert (n <> 0) by (intros ->; simpl in H; lia). lia.
Qed.

(** A mantissa that is already placed needs no rounding. *)
Lemma binary_round_aux_canonical (s : bool) (m : positive) (e : Z) :
  fexp prec emax (Z.pos (digits2_pos m) + e) = e -> e <= emax - prec ->
  binary_round_aux prec emax s (Z.pos m) e loc_Exact = S754_finite s m e.
Proof.
  intros Hf He. unfold binary_round_aux, shr_fexp.
  change (Zdigits2 (Z.pos m)) with (Z.pos (digits2_pos m)).
  rewrite Hf, Z.sub_diag.
  cbn [shr shr_record_of_loc shr_m loc_of_shr_record round_nearest_even].
  change (Zdigits2 (Z.pos m)) with (Z.pos (digits2_pos m)).
  rewrite Hf, Z.sub_diag. cbn [shr shr_record_of_loc shr_m].
  apply Z.leb_le in He. rewrite He. reflexivity.
Qed.

(** An integer below [2^53] in size fits the 53 bits of the mantissa. *)
Lemma binary_round_exact (s : bool) (m : positive) :
  Z.pos m < 2 ^ 53 ->
  exists m' e, binary_round prec emax s m 0 = S754_finite s m' e
    /\ -52 <= e <= 0 /\ Z.pos m' = Z.pos m * 2 ^ (- e)
    /\ Z.pos (digits2_pos m') = 53.
Proof.
  intros Hm.
  pose proof (digits2_pos_le m 53 ltac:(lia) Hm) as Hd.
  assert (0 < Z.pos (digits2_pos m)) by lia.
  unfold binary_round.
  assert (Hf : fexp prec emax (Z.pos (digits2_pos m) + 0) = Z.pos (digits2_pos m) - 53).
  { unfold fexp, emin, prec, emax. lia. }
  rewrite Hf. unfold shl_align.
  destruct (Z.pos (digits2_pos m) - 53 - 0) as [|p|p] eqn:Hp; try lia.
  - exists m, 0. split; [|split; [lia|split; [simpl; lia|lia]]].
    apply binary_round_aux_canonical; [|unfold emax, prec; lia].
    rewrite Hf. lia.
  - exists (Pos.iter xO m p), (Z.pos (digits2_pos m) - 53).
    split; [|split; [lia|split]].
    + apply binary_round_aux_canonical; [|unfold emax, prec; lia].
      rewrite digits2_pos_iter_xO. unfold fexp, emin, prec, emax. lia.
    + rewrite Zpos_iter_xO. f_equal. f_equal. lia.
    + rewrite digits2_pos_iter_xO. lia.
Qed.

Lemma digits2_pos_bounds (m : positive) :
  2 ^ (Z.pos (digits2_pos m) - 1) <= Z.pos m < 2 ^ Z.pos (digits2_pos m).
Proof.
  induction m as [m IH|m IH|]; cbn [digits2_pos].
  - rewrite Pos2Z.inj_succ. replace (Z.succ (Z.pos (digits2_pos m)) - 1) with (Z.succ (Z.pos (digits2_pos m) - 1)) by lia.
    rewrite !Z.pow_succ_r by lia. lia.
  - rewrite Pos2Z.inj_succ. replace (Z.succ (Z.pos (digits2_pos m)) - 1) with (Z.succ (Z.pos (digits2_pos m) - 1)) by lia.
    rewrite !Z.pow_succ_r by lia. lia.
  - simpl. lia.
Qed.

Lemma digits2_pos_unique (m : positive) (d : Z) :
  2 ^ (d - 1) <= Z.pos m < 2 ^ d -> Z.pos (digits2_pos m) = d.
Proof.
  intros [Hlo Hhi]. pose proof (digits2_pos_bounds m) as [Hlo' Hhi'].
  assert (0 < d).
  { destruct (Z_lt_le_dec 0 d); [assumption|].
    assert (2 ^ d <= 2 ^ 0) by (apply Z.pow_le_mono_r; lia). simpl in *. lia. }
  destruct (Z.lt_trichotomy (Z.pos (digits2_pos m)) d) as [Hlt|[Heq|Hgt]]; [|exact Heq|].
  - assert (2 ^ Z.pos (digits2_pos m) <= 2 ^ (d - 1)) by (apply Z.pow_le_mono_r; lia). lia.
  - assert (2 ^ d <= 2 ^ (Z.pos (digits2_pos m) - 1)) by (apply Z.pow_le_mono_r; lia). lia.
Qed.

Lemma new_location_matches (D r : Z) :
  0 <= r < D -> loc_matches (new_location D r) r D.
Proof.
  intros Hr. unfold new_location.
  destruct (Z.even D) eqn:He.
  - unfold new_location_even. destruct (Z.eqb_spec r 0) as [->|Hn]; [reflexivity|].
    cbn [loc_matches]. destruct (Z.compare_spec (2 * r) D); cbn [loc_matches]; lia.
  - unfold new_location_odd. destruct (Z.eqb_spec r 0) as [->|Hn]; [reflexivity|].
    assert (Hodd : Z.odd D = true) by (rewrite <- Z.negb_even, He; reflexivity).
    apply Z.odd_spec in Hodd. destruct Hodd as [k Hk].
    destruct (Z.compare_spec (2 * r + 1) D); cbn [loc_matches]; lia.
Qed.

Lemma round_nearest_even_near (m r D : Z) (l : location) :
  0 <= r < D -> loc_matches l r D ->
  let mx := round_nearest_even m l in
  (mx = m \/ mx = m + 1) /\ 2 * Z.abs (mx * D - (m * D + r)) <= D.
Proof.
  intros Hr Hl. destruct l as [|[| |]]; cbn [loc_matches round_nearest_even] in *.
  - subst r. split; [auto|]. replace (m * D - (m * D + 0)) with 0 by ring. simpl. lia.
  - destruct (Z.even m); split; auto; nia.
  - split; [auto|]. nia.
  - split; [auto|]. nia.
Qed.

Lemma loc_of_shr_record_of_loc m l : loc_of_shr_record (shr_record_of_loc m l) = l.
Proof. destruct l as [|[| |]]; reflexivity. Qed.

Lemma shr_m_record_of_loc m l : shr_m (shr_record_of_loc m l) = m.
Proof. destruct l as [|[| |]]; reflexivity. Qed.

(** The exponent range in which quotients of integers below 2^53 fall. *)
Lemma fexp_normal (d e : Z) : -1021 <= d + e -> fexp prec emax (d + e) = d + e - 53.
Proof. intros H. unfold fexp, emin, prec, emax. lia. Qed.

Lemma finish_spec (s : bool) (mx e : Z) :
  2 ^ 52 <= mx <= 2 ^ 53 -> -200 <= e <= 0 ->
  exists (M : positive) (k : Z),
    finish s mx e = S754_finite s M (e + k)
    /\ 0 <= k <= 1 /\ Z.pos (digits2_pos M) = 53 /\ Z.pos M * 2 ^ k = mx.
Proof.
  intros Hmx He. destruct mx as [|p|p]; try lia.
  destruct (Z.eq_dec (Z.pos p) (2 ^ 53)) as [Heq|Hne].
  - assert (Hd : Z.pos (digits2_pos p) = 54) by (apply digits2_pos_unique; lia).
    exists (2 ^ 52)%positive, 1. split; [|split; [lia|split; [reflexivity|rewrite Heq; reflexivity]]].
    unfold finish, shr_fexp. cbn [Zdigits2]. rewrite Hd, fexp_normal by lia.
    replace (54 + e - 53 - e) with 1 by lia. cbn [shr]. injection Heq as ->.
    cbn [SpecFloat.iter_pos shr_1 shr_record_of_loc shr_m orb].
    replace (e + 1 <=? emax - prec) with true by (symmetry; apply Z.leb_le; unfold emax, prec; lia).
    reflexivity.
  - exists p, 0. assert (Hd : Z.pos (digits2_pos p) = 53) by (apply digits2_pos_unique; lia).
    split; [|split; [lia|split; [exact Hd|lia]]].
    unfold finish, shr_fexp. cbn [Zdigits2]. rewrite Hd, fexp_normal by lia.
    replace (53 + e - 53 - e) with 0 by lia. cbn [shr shr_record_of_loc shr_m].
    rewrite Z.add_0_r.
    replace (e <=? emax - prec) with true by (symmetry; apply Z.leb_le; unfold emax, prec; lia).
    reflexivity.
Qed.

Lemma binary_round_aux_finish s mx ex lx :
  binary_round_aux prec emax s mx ex lx
  = let '(mrs', e') := shr_fexp prec emax mx ex lx in
    finish s (round_nearest_even (shr_m mrs') (loc_of_shr_record mrs')) e'.
Proof. reflexivity. Qed.

(** Rounding a quotient [q + r/D] whose integer part has 53 or 54 bits. *)
Lemma binary_round_aux_near (s : bool) (q e r D : Z) (l : location) :
  2 ^ 52 <= q < 2 ^ 54 -> -200 <= e <= -1 ->
  0 <= r < D -> loc_matches l r D ->
  exists (M : positive) (k : Z),
    binary_round_aux prec emax s q e l = S754_finite s M (e + k)
    /\ 0 <= k <= 2 /\ Z.pos (digits2_pos M) = 53
    /\ 2 * Z.abs (Z.pos M * 2 ^ k * D - (q * D + r)) <= 2 ^ k * D.
Proof.
  intros Hq He Hr Hl. rewrite binary_round_aux_finish. unfold shr_fexp.
  destruct q as [|p|p]; try lia. cbn [Zdigits2].
  destruct (Z_lt_le_dec (Z.pos p) (2 ^ 53)) as [Hlt|Hge].
  - assert (Hd : Z.pos (digits2_pos p) = 53) by (apply digits2_pos_unique; lia).
    rewrite Hd, fexp_normal by lia. replace (53 + e - 53 - e) with 0 by lia.
    cbn [shr]. rewrite shr_m_record_of_loc, loc_of_shr_record_of_loc.
    destruct (round_nearest_even_near (Z.pos p) r D l Hr Hl) as [Hmx Hnear].
    destruct (finish_spec s (round_nearest_even (Z.pos p) l) e) as (M & k & Hf & Hk & HM & Hval);
      [lia|lia|].
    exists M, k. rewrite Hf. split; [reflexivity|]. split; [lia|]. split; [exact HM|].
    rewrite Hval. assert (1 <= 2 ^ k) by (apply (Z.pow_le_mono_r 2 0 k); lia). nia.
  - assert (Hd : Z.pos (digits2_pos p) = 54) by (apply digits2_pos_unique; lia).
    rewrite Hd, fexp_normal by lia. replace (54 + e - 53 - e) with 1 by lia.
    cbn [shr SpecFloat.iter_pos].
    set (odd := Z.odd (Z.pos p)). set (half := Z.pos p / 2).
    assert (Hhalf : Z.pos p = 2 * half + (if odd then 1 else 0)).
    { subst odd half. rewrite (Z.div_mod (Z.pos p) 2) at 1 by lia.
      rewrite Zmod_odd. reflexivity. }
    set (r' := (if odd then D else 0) + r).
    set (l' := match odd, l with
               | false, loc_Exact => loc_Exact
               | false, _ => loc_Inexact Lt
               | true, loc_Exact => loc_Inexact Eq
               | true, _ => loc_Inexact Gt
               end).
    assert (Hshr : shr_1 (shr_record_of_loc (Z.pos p) l) = shr_record_of_loc half l').
    { subst half odd l'. destruct p as [p|p|]; [| |lia].
      - replace (Z.pos p~1 / 2) with (Z.pos p) by (rewrite Pos2Z.inj_xI; apply Z.div_unique with 1; lia).
        destruct l as [|[| |]]; reflexivity.
      - replace (Z.pos p~0 / 2) with (Z.pos p) by (rewrite Pos2Z.inj_xO; apply Z.div_unique with 0; lia).
        destruct l as [|[| |]]; reflexivity. }
    rewrite Hshr, shr_m_record_of_loc, loc_of_shr_record_of_loc.
    assert (Hl' : loc_matches l' r' (2 * D)).
    { subst l' r'. destruct odd; destruct l as [|[| |]]; cbn [loc_matches] in *; lia. }
    assert (Hr' : 0 <= r' < 2 * D) by (subst r'; destruct odd; lia).
    destruct (round_nearest_even_near half r' (2 * D) l' Hr' Hl') as [Hmx Hnear].
    destruct (finish_spec s (round_nearest_even half l') (e + 1)) as (M & k & Hf & Hk & HM & Hval);
      [destruct odd; lia|lia|].
    exists M, (1 + k). rewrite Hf. split; [f_equal; lia|]. split; [lia|]. split; [exact HM|].
    rewrite Z.pow_add_r by lia. 
    assert (Hx : Z.pos p * D + r = half * (2 * D) + r') by (subst r'; destruct odd; lia).
    rewrite Hx. assert (1 <= 2 ^ k) by (apply (Z.pow_le_mono_r 2 0 k); lia).
    replace (Z.pos M * (2 ^ 1 * 2 ^ k) * D) with (round_nearest_even half l' * (2 * D)) by (rewrite <- Hval; ring).
    change (2 ^ 1) with 2. nia.
Qed.

Lemma SFdiv_near (s1 s2 : bool) (m1 m2 : positive) (e1 e2 : Z) :
  Z.pos (digits2_pos m1) = 53 -> Z.pos (digits2_pos m2) = 53 ->
  -52 <= e1 <= 0 -> -52 <= e2 <= 0 ->
  exists (M : positive) (k : Z),
    SFdiv prec emax (S754_finite s1 m1 e1) (S754_finite s2 m2 e2)
    = S754_finite (xorb s1 s2) M (e1 - e2 - 53 + k)
    /\ 0 <= k <= 2 /\ Z.pos (digits2_pos M) = 53
    /\ 2 * Z.abs (Z.pos M * 2 ^ k * Z.pos m2 - Z.pos m1 * 2 ^ 53) <= 2 ^ k * Z.pos m2.
Proof.
  intros Hd1 Hd2 He1 He2.
  pose proof (digits2_pos_bounds m1) as Hb1. rewrite Hd1 in Hb1.
  pose proof (digits2_pos_bounds m2) as Hb2. rewrite Hd2 in Hb2.
  cbn [SFdiv]. unfold SFdiv_core_binary. cbn [Zdigits2]. rewrite Hd1, Hd2.
  assert (He' : Z.min (fexp prec emax (53 + e1 - (53 + e2))) (e1 - e2) = e1 - e2 - 53).
  { unfold fexp, emin, prec, emax. lia. }
  rewrite He'. replace (e1 - e2 - (e1 - e2 - 53)) with 53 by lia.
  rewrite Z.shiftl_mul_pow2 by lia.
  pose proof (Z_div_mod (Z.pos m1 * 2 ^ 53) (Z.pos m2) ltac:(lia)) as Hdiv.
  destruct (Z.div_eucl (Z.pos m1 * 2 ^ 53) (Z.pos m2)) as [q r]. destruct Hdiv as [Hq Hr].
  assert (Hqb : 2 ^ 52 <= q < 2 ^ 54).
  { change (2 ^ 52) with 4503599627370496 in *. change (2 ^ 53) with 9007199254740992 in *.
    change (2 ^ 54) with 18014398509481984. split.
    - destruct (Z_lt_le_dec q 4503599627370496) as [Hlt|]; [|assumption].
      assert (Z.pos m2 * q <= Z.pos m2 * 4503599627370495)
        by (apply Z.mul_le_mono_nonneg_l; lia).
      lia.
    - destruct (Z_lt_le_dec q 18014398509481984) as [|Hge]; [assumption|].
      assert (Z.pos m2 * 18014398509481984 <= Z.pos m2 * q)
        by (apply Z.mul_le_mono_nonneg_l; lia).
      lia. }
  destruct (binary_round_aux_near (xorb s1 s2) q (e1 - e2 - 53) r (Z.pos m2)
              (new_location (Z.pos m2) r) Hqb ltac:(lia) Hr
              (new_location_matches _ _ Hr)) as (M & k & Hf & Hk & HM & Hnear).
  exists M, k. split; [exact Hf|]. split; [exact Hk|]. split; [exact HM|].
  rewrite Hq. replace (Z.pos m2 * q + r) with (q * Z.pos m2 + r) by ring. exact Hnear.
Qed.

(** [float(z)] of an integer other than zero is a normal double. *)
Lemma float_of_int_normal (z : Z) :
  z <> 0 -> Z.abs z < 2 ^ 53 ->
  exists m e,
    float_of_int z = Ok (S754_finite (z <? 0) m e)
    /\ Z.pos (digits2_pos m) = 53 /\ -52 <= e <= 0 /\ Z.pos m = Z.abs z * 2 ^ (- e).
Proof.
  intros Hnz Hz. unfold float_of_int. destruct z as [|p|p]; [lia| |];
    cbn [binary_normalize Z.ltb Z.compare].
  - destruct (binary_round_exact false p Hz) as (m & e & -> & He & Hm & Hd).
    exists m, e. auto.
  - destruct (binary_round_exact true p Hz) as (m & e & -> & He & Hm & Hd).
    exists m, e. auto.
Qed.

(** The bound on the error of a quotient of two normal doubles, brought
    from their mantissas back to the integers they hold. *)
Lemma half_ulp_scaled (M A B k p1 p2 : Z) :
  0 <= k -> 0 <= p1 -> 0 <= p2 ->
  2 * Z.abs (M * 2 ^ k * (B * 2 ^ p2) - A * 2 ^ p1 * 2 ^ 53) <= 2 ^ k * (B * 2 ^ p2) ->
  let E := - p1 - - p2 - 53 + k in
  2 * Z.abs (M * 2 ^ Z.max 0 E * B - A * 2 ^ Z.max 0 (- E)) <= 2 ^ Z.max 0 E * B.
Proof.
  intros Hk Hp1 Hp2 H E.
  destruct (Z_le_gt_dec 0 E) as [HE|HE].
  - rewrite (Z.max_r 0 E), (Z.max_l 0 (- E)) by lia. rewrite Z.pow_0_r, Z.mul_1_r.
    set (c := 2 ^ (p1 + 53)). assert (Hc : 0 < c) by (apply Z.pow_pos_nonneg; lia).
    assert (H1 : 2 ^ k * 2 ^ p2 = 2 ^ E * c).
    { subst c. rewrite <- !Z.pow_add_r by lia. f_equal. lia. }
    assert (H2 : 2 ^ p1 * 2 ^ 53 = c) by (subst c; rewrite Z.pow_add_r by lia; reflexivity).
    replace (M * 2 ^ k * (B * 2 ^ p2) - A * 2 ^ p1 * 2 ^ 53)
      with (M * B * (2 ^ k * 2 ^ p2) - A * (2 ^ p1 * 2 ^ 53)) in H by ring.
    replace (2 ^ k * (B * 2 ^ p2)) with (B * (2 ^ k * 2 ^ p2)) in H by ring.
    rewrite H1, H2 in H.
    replace (M * B * (2 ^ E * c) - A * c) with (c * (M * 2 ^ E * B - A)) in H by ring.
    replace (B * (2 ^ E * c)) with (c * (2 ^ E * B)) in H by ring.
    rewrite Z.abs_mul, (Z.abs_eq c) in H by lia. nia.
  - rewrite (Z.max_l 0 E), (Z.max_r 0 (- E)) by lia. rewrite Z.pow_0_r, !Z.mul_1_r, Z.mul_1_l.
    set (c := 2 ^ (k + p2)). assert (Hc : 0 < c) by (apply Z.pow_pos_nonneg; lia).
    assert (H1 : 2 ^ k * 2 ^ p2 = c) by (subst c; rewrite Z.pow_add_r by lia; reflexivity).
    assert (H2 : 2 ^ p1 * 2 ^ 53 = 2 ^ (- E) * c).
    { subst c. rewrite <- !Z.pow_add_r by lia. f_equal. lia. }
    replace (M * 2 ^ k * (B * 2 ^ p2) - A * 2 ^ p1 * 2 ^ 53)
      with (M * B * (2 ^ k * 2 ^ p2) - A * (2 ^ p1 * 2 ^ 53)) in H by ring.
    replace (2 ^ k * (B * 2 ^ p2)) with (B * (2 ^ k * 2 ^ p2)) in H by ring.
    rewrite H1, H2 in H.
    replace (M * B * c - A * (2 ^ (- E) * c)) with (c * (M * B - A * 2 ^ (- E))) in H by ring.
    replace (B * c) with (c * B) in H by ring.
    rewrite Z.abs_mul, (Z.abs_eq c) in H by lia. nia.
Qed.

(** * The claims *)

(** ** Healthy instances (C6) *)

(** C6.  For every list of instances of the autoscaling group, the count of
    healthy in-service instances is the number of instances whose health
    status is exactly "Healthy" and whose lifecycle state is exactly
    "InService": the counting loop computes it, and the function returns it
    for the instances of the first group described (none when the group has
    no instance list).  An instance that meets only one of the two
    conditions is not among those counted. *)
Theorem healthy_in_service_counted (cfg : config) (group : auto_scaling_group)
    (groups : list auto_scaling_group) (rest : list (outcome (list auto_scaling_group)))
    (w : world) :
  asg_script w = Returns (group :: groups) :: rest ->
  (forall instances,
      count_in_service instances 0
      = Z.of_nat (length (filter healthy_in_service instances)))
  /\ fst (get_asg_healthy_instances_in_service cfg w)
     = Ok (Z.of_nat (length (filter healthy_in_service (default [] (Instances group)))))
  /\ (forall i instances n,
        HealthStatus i <> "Healthy" \/ LifecycleState i <> "InService" ->
        count_in_service (i :: instances) n = count_in_service instances n).
Proof.
  intros Hs. split; [|split].
  - intros instances. rewrite count_in_service_spec. lia.
  - unfold get_asg_healthy_instances_in_service.
    assert (Hd : describe_auto_scaling_groups [ASG_NAME cfg] w
                 = (Ok (group :: groups), snd (asg_describe_auto_scaling_groups [ASG_NAME cfg] w))).
    { unfold describe_auto_scaling_groups, on_exception. apply retry_exception_returns.
      unfold asg_describe_auto_scaling_groups. rewrite Hs. reflexivity. }
    rewrite (bind_returns _ _ _ _ _ Hd). cbn [index lookup list_lookup].
    rewrite bind_lift_ok. cbn [ret fst]. rewrite count_in_service_spec. f_equal.
  - intros i instances n Hi. cbn [count_in_service].
    rewrite healthy_in_service_test, bool_decide_eq_false_2; [reflexivity|].
    unfold healthy_in_service. tauto.
Qed.

Lemma healthy_in_service_counted_sample :
  fst (get_asg_healthy_instances_in_service sample_cfg sample_fleet_world) = Ok 1.
Proof.
  exact (proj1 (proj2 (healthy_in_service_counted sample_cfg
                         {| Instances := Some sample_fleet |} [] [] sample_fleet_world
                         eq_refl))).
Defined.

(** ** Project discovery (C2, C8, C9, C4) *)

Lemma listed_well_formed strptime (pre : list (response * string)) (last : response) :
  Forall (inner_page strptime) pre ->
  final_page strptime last ->
  Forall (well_formed strptime) (flat_map (fun page => json (fst page)) pre ++ json last).
Proof.
  intros Hpre (_ & Hlast & _). apply Forall_app. split; [|exact Hlast].
  induction Hpre as [|page pre (_ & Hwf & _) _ IH]; [constructor|].
  cbn [flat_map]. apply Forall_app. auto.
Qed.

(** Which ids [active_ids] holds. *)
Lemma active_ids_elem strptime cutoff (projects : list dict) (pid : jvalue) :
  Forall (well_formed strptime) projects ->
  pid ∈ active_ids strptime cutoff projects
  <-> exists p t, p ∈ projects /\ p !! "id" = Some pid
                  /\ stamp_of strptime p = Some t /\ cutoff < t.
Proof.
  intros Hwf. unfold active_ids. rewrite list_elem_of_In, in_map_iff. split.
  - intros (p & Hid & Hp). apply list_elem_of_In, list_elem_of_filter in Hp.
    destruct Hp as [Ha Hp]. rewrite Forall_forall in Hwf.
    destruct (Hwf p Hp) as [[i Hi] [t Ht]].
    exists p, t. rewrite (id_of_some _ _ Hi) in Hid. subst i.
    unfold active_after in Ha. rewrite Ht in Ha. apply Z.ltb_lt in Ha. auto.
  - intros (p & t & Hp & Hi & Ht & Hlt). exists p. split; [apply id_of_some, Hi|].
    apply list_elem_of_In, list_elem_of_filter. split; [|exact Hp].
    unfold active_after. rewrite Ht. apply Z.ltb_lt, Hlt.
Qed.

(** C2.  For every sequence of project pages the API returns (each page but
    the last carrying the Links cursor header, the last lacking it),
    discovery returns the ids of exactly those projects whose last activity
    is strictly after the invocation time minus four hours, in the order of
    the listing, and it requests every page in turn, following the cursors,
    up to and including the page that lacks the header and no further. *)
Theorem discovery_pages_and_cutoff (strptime : string -> option datetime) (cfg : config)
    (token : string) (pre : list (response * string)) (last : response)
    (rest : list (outcome response)) (w : world) :
  Forall (inner_page strptime) pre ->
  final_page strptime last ->
  http_script w = map (fun page => Returns (fst page)) pre ++ Returns last :: rest ->
  let cutoff := clock w - timedelta_hours 4 in
  let projects := flat_map (fun page => json (fst page)) pre ++ json last in
  exists ids w',
    get_all_project_ids strptime cfg token w = (Ok ids, w')
    /\ ids = active_ids strptime cutoff projects
    /\ (forall pid, pid ∈ ids
                    <-> exists p t, p ∈ projects /\ p !! "id" = Some pid
                                    /\ stamp_of strptime p = Some t /\ cutoff < t)
    /\ http_log w' = http_log w ++ map (fun l => (l, token)) (first_link cfg :: map snd pre)
    /\ http_script w' = rest.
Proof.
  intros Hpre Hlast Hs cutoff projects.
  destruct (get_all_project_ids_run strptime cfg token pre last rest w Hpre Hs)
    as (w' & Hs' & Hl' & _ & Hfinal & _).
  exists (active_ids strptime cutoff projects), w'.
  split; [apply Hfinal, Hlast|]. split; [reflexivity|]. split; [|auto].
  intros pid. apply active_ids_elem, listed_well_formed; assumption.
Qed.

(** C8.  When a page of the listing carries the Links header value
    [<https://x/page2>; rel="next"], the cursor extracted from it is
    [https://x/page2], and that is the URL of the very next request. *)
Theorem next_page_url (strptime : string -> option datetime) (cfg : config)
    (token : string) (res : response) (rest : list (outcome response)) (w : world) :
  status_code res = 200 ->
  Forall (well_formed strptime) (json res) ->
  headers_lookup "Links" res = Some sample_links ->
  http_script w = Returns res :: rest ->
  next_link sample_links = Ok "https://x/page2"
  /\ http_log (snd (get_all_project_ids strptime cfg token w)) !! S (length (http_log w))
     = Some ("https://x/page2", token).
Proof.
  intros Hst Hwf Hl Hs. split; [reflexivity|].
  unfold get_all_project_ids, bind at 1, utcnow. rewrite Hs. cbn [length].
  remember (S (length rest)) as fuel eqn:Hfuel. cbn [project_pages].
  destruct (get_request_returns (first_link cfg) token res rest w Hs)
    as (w1 & Hget & Hs1 & Hl1 & _).
  rewrite (bind_returns _ _ _ _ _ Hget). rewrite Hst. cbn [Z.eqb Pos.eqb negb].
  rewrite (scan_projects_spec _ _ _ _ Hwf), bind_lift_ok, Hl.
  change (next_link sample_links) with (@Ok string "https://x/page2").
  rewrite bind_lift_ok.
  match goal with
  | |- context [project_pages ?s ?f ?c ?t ?l ?ids ?w0] =>
      destruct (project_pages_log s c t f l ids w0) as (l0 & Hlog & Hfirst)
  end.
  destruct Hfirst as [l' ->]; [subst fuel; discriminate|].
  rewrite Hlog, Hl1, <- app_assoc. cbn [app].
  rewrite lookup_app_r by lia. rewrite Nat.sub_succ_l, Nat.sub_diag by lia. reflexivity.
Qed.

Lemma sample_page1_inner : inner_page strptime_padded (sample_page1, "https://x/page2").
Proof.
  split; [reflexivity|]. split.
  - repeat constructor; eexists; vm_compute; reflexivity.
  - exists sample_links. split; reflexivity.
Defined.

Lemma sample_listing_inner :
  Forall (inner_page strptime_padded) [(sample_page1, "https://x/page2")].
Proof. constructor; [exact sample_page1_inner|constructor]. Defined.

Lemma sample_page2_final : final_page strptime_padded sample_page2.
Proof.
  split; [reflexivity|]. split; [|reflexivity].
  repeat constructor; eexists; vm_compute; reflexivity.
Defined.

Lemma discovery_pages_and_cutoff_sample :
  exists w',
    get_all_project_ids strptime_padded sample_cfg "glpat-sample"
      (sample_world [Returns sample_page1; Returns sample_page2])
    = (Ok [JInt 1; JInt 4], w')
    /\ http_log w' = [(first_link sample_cfg, "glpat-sample");
                      ("https://x/page2", "glpat-sample")]
    /\ http_script w' = [].
Proof.
  destruct (discovery_pages_and_cutoff strptime_padded sample_cfg "glpat-sample"
              [(sample_page1, "https://x/page2")] sample_page2 []
              (sample_world [Returns sample_page1; Returns sample_page2])
              sample_listing_inner
              sample_page2_final eq_refl)
    as (ids & w' & Hrun & Hids & _ & Hlog & Hscript).
  exists w'. rewrite Hrun, Hids. split; [reflexivity|]. split; assumption.
Defined.

Lemma next_page_url_sample :
  http_log (snd (get_all_project_ids strptime_padded sample_cfg "glpat-sample"
                   (sample_world [Returns sample_page1; Returns sample_page2])))
    !! 1%nat
  = Some ("https://x/page2", "glpat-sample").
Proof.
  exact (proj2 (next_page_url strptime_padded sample_cfg "glpat-sample" sample_page1
                  [Returns sample_page2]
                  (sample_world [Returns sample_page1; Returns sample_page2])
                  eq_refl (proj1 (proj2 sample_page1_inner)) eq_refl eq_refl)).
Defined.

(** Discovery always ends by itself: the bound on the rounds of the loop is
    never what stops it. *)
Theorem get_all_project_ids_ends (strptime : string -> option datetime) (cfg : config)
    (token : string) (w : world) :
  fst (get_all_project_ids strptime cfg token w) <> OutOfFuel.
Proof.
  unfold get_all_project_ids, bind, utcnow. apply project_pages_not_cut. lia.
Qed.

(** C9, as the code has it.  When a page of the listing answered with status
    200 lacks the cursor header, discovery ends there without raising and
    returns the ids gathered so far together with those of that page; when
    that page lists no project, it returns just the ids gathered so far,
    which are none when it is the only page. *)
Theorem discovery_ends_without_header (strptime : string -> option datetime) (cfg : config)
    (token : string) (pre : list (response * string)) (last : response)
    (rest : list (outcome response)) (w : world) :
  Forall (inner_page strptime) pre ->
  final_page strptime last ->
  http_script w = map (fun page => Returns (fst page)) pre ++ Returns last :: rest ->
  let cutoff := clock w - timedelta_hours 4 in
  let so_far := active_ids strptime cutoff (flat_map (fun page => json (fst page)) pre) in
  exists w',
    get_all_project_ids strptime cfg token w
    = (Ok (so_far ++ active_ids strptime cutoff (json last)), w')
    /\ http_script w' = rest
    /\ (json last = [] ->
        get_all_project_ids strptime cfg token w = (Ok so_far, w'))
    /\ (json last = [] -> pre = [] ->
        get_all_project_ids strptime cfg token w = (Ok [], w')).
Proof.
  intros Hpre Hlast Hs cutoff so_far.
  destruct (get_all_project_ids_run strptime cfg token pre last rest w Hpre Hs)
    as (w' & Hs' & _ & _ & Hfinal & _).
  specialize (Hfinal Hlast). rewrite active_ids_app in Hfinal. fold cutoff so_far in Hfinal.
  exists w'. split; [exact Hfinal|]. split; [exact Hs'|]. split.
  - intros Hempty. rewrite Hfinal, Hempty.
    change (active_ids strptime cutoff []) with (@nil jvalue).
    rewrite app_nil_r. reflexivity.
  - intros Hempty ->. rewrite Hfinal, Hempty. reflexivity.
Qed.

Lemma sample_empty_page_final : final_page strptime_padded sample_empty_page.
Proof. split; [reflexivity|]. split; [constructor|reflexivity]. Defined.

Lemma discovery_ends_without_header_sample :
  exists w',
    get_all_project_ids strptime_padded sample_cfg "glpat-sample"
      (sample_world [Returns sample_page1; Returns sample_empty_page])
    = (Ok [JInt 1], w').
Proof.
  destruct (discovery_ends_without_header strptime_padded sample_cfg "glpat-sample"
              [(sample_page1, "https://x/page2")] sample_empty_page []
              (sample_world [Returns sample_page1; Returns sample_empty_page])
              sample_listing_inner
              sample_empty_page_final eq_refl)
    as (w' & _ & _ & Hrun & _).
  exists w'. rewrite (Hrun eq_refl). reflexivity.
Defined.

(** A page whose cursor header is present but empty makes discovery raise
    [IndexError]: it does not end cleanly. *)
Lemma empty_links_header_raises :
  fst (get_all_project_ids strptime_padded sample_cfg "glpat-sample"
         (sample_world [Returns sample_empty_links_page]))
  = Raise IndexError
  /\ ~ (exists ids,
         fst (get_all_project_ids strptime_padded sample_cfg "glpat-sample"
                (sample_world [Returns sample_empty_links_page]))
         = Ok ids).
Proof.
  split; [vm_compute; reflexivity|]. intros [ids H]. vm_compute in H. discriminate.
Qed.

(** C4.  If a request for a page of the project listing is answered with a
    status other than 200, discovery raises the generic error and returns no
    project ids; the aggregation raises it too, having requested nothing but
    the listing pages up to the failed one (no job listing of any project);
    and the whole invocation ends with that error, having published nothing
    and not asked for the autoscaling group. *)
Theorem listing_failure_aborts (strptime : string -> option datetime) (cfg : config)
    (token : string) (pre : list (response * string)) (failed : response)
    (rest : list (outcome response)) (w : world) :
  Forall (inner_page strptime) pre ->
  status_code failed <> 200 ->
  http_script w = map (fun page => Returns (fst page)) pre ++ Returns failed :: rest ->
  let error := Exception "Error retrieving all the projects" in
  let requested := map (fun l => (l, token)) (first_link cfg :: map snd pre) in
  (exists w',
      get_all_project_ids strptime cfg token w = (Raise error, w'))
  /\ (exists w',
         get_number_of_pending_and_running_jobs strptime cfg token w = (Raise error, w')
         /\ http_log w' = http_log w ++ requested
         /\ http_script w' = rest)
  /\ (forall ssm_rest,
         ssm_script w = Returns token :: ssm_rest ->
         exists w',
           handler strptime cfg w = (Raise error, w')
           /\ http_log w' = http_log w ++ requested
           /\ http_script w' = rest
           /\ sdk_log w' = sdk_log w ++ [GetParameter (TOKEN_SSM_PATH cfg) true]
           /\ asg_script w' = asg_script w
           /\ cw_script w' = cw_script w).
Proof.
  intros Hpre Hst Hs error requested.
  assert (Hnumber : forall w0,
             http_script w0 = http_script w ->
             exists w',
               get_all_project_ids strptime cfg token w0 = (Raise error, w')
               /\ get_number_of_pending_and_running_jobs strptime cfg token w0
                  = (Raise error, w')
               /\ http_log w' = http_log w0 ++ requested
               /\ http_script w' = rest
               /\ http_only w0 w').
  { intros w0 Hw0. rewrite Hs in Hw0.
    destruct (get_all_project_ids_run strptime cfg token pre failed rest w0 Hpre Hw0)
      as (w' & Hs' & Hl' & Ho' & _ & Hfail).
    specialize (Hfail Hst). exists w'. split; [exact Hfail|]. split; [|auto].
    unfold get_number_of_pending_and_running_jobs, get_all_pending_and_running_job_ids.
    apply bind_raises. apply bind_raises. exact Hfail. }
  split; [|split].
  - destruct (Hnumber w eq_refl) as (w' & Hrun & _). exists w'. exact Hrun.
  - destruct (Hnumber w eq_refl) as (w' & _ & Hrun & Hl & Hs' & _). exists w'. auto.
  - intros ssm_rest Hssm.
    destruct (get_parameter_returns (TOKEN_SSM_PATH cfg) true token ssm_rest w Hssm)
      as (w1 & Hget & Hs1 & Hl1 & _ & Hasg1 & Hcw1 & Hsdk1).
    destruct (Hnumber w1 Hs1) as (w' & _ & Hrun & Hl & Hs' & _ & Hasg & Hcw & Hsdk & _).
    exists w'. split.
    + unfold handler. rewrite (bind_returns _ _ _ _ _ Hget). apply bind_raises. exact Hrun.
    + rewrite Hl, Hl1, Hsdk, Hsdk1, Hasg, Hasg1, Hcw, Hcw1. auto.
Qed.

(** A listing whose second page is answered with status 500. *)
Lemma listing_failure_aborts_sample :
  exists w',
    handler strptime_padded sample_cfg
      (sample_world [Returns sample_page1; Returns (sample_answer 500 []); Returns sample_page2])
    = (Raise (Exception "Error retrieving all the projects"), w')
    /\ http_log w' = [(first_link sample_cfg, "glpat-sample");
                      ("https://x/page2", "glpat-sample")]
    /\ sdk_log w' = [GetParameter "/gitlab/runner/token" true].
Proof.
  destruct (proj2 (proj2
              (listing_failure_aborts strptime_padded sample_cfg "glpat-sample"
                 [(sample_page1, "https://x/page2")] (sample_answer 500 [])
                 [Returns sample_page2]
                 (sample_world [Returns sample_page1; Returns (sample_answer 500 []);
                                Returns sample_page2])
                 sample_listing_inner ltac:(discriminate) eq_refl)) [] eq_refl)
    as (w' & Hrun & Hlog & _ & Hsdk & _).
  exists w'. split; [exact Hrun|]. split; assumption.
Defined.

(** ** Job aggregation (C7, C3) *)

(** The counts returned once discovery has found [project_ids] and GitLab
    answers the two job listings of every project: the jobs of all answers
    with status 200, scope by scope. *)
Lemma job_counts_run strptime cfg token (project_ids : list jvalue)
    (answers : list (response * response)) rest w w1 :
  get_all_project_ids strptime cfg token w = (Ok project_ids, w1) ->
  length answers = length project_ids ->
  Forall (fun a => Forall has_id (jobs_of (fst a)) /\ Forall has_id (jobs_of (snd a))) answers ->
  http_script w1 = job_answers answers ++ rest ->
  exists w',
    get_number_of_pending_and_running_jobs strptime cfg token w
    = (Ok (sum_lengths (map (fun a => jobs_of (fst a)) answers),
           sum_lengths (map (fun a => jobs_of (snd a)) answers)), w')
    /\ http_log w' = http_log w1 ++ job_requests cfg token project_ids
    /\ http_script w' = rest.
Proof.
  intros Hids Hlen Hjobs Hs.
  destruct (collect_job_ids_spec cfg token answers Hjobs project_ids [] [] rest w1
              (eq_sym Hlen) Hs) as (w' & Hrun & Hs' & Hl' & _).
  exists w'. split; [|auto].
  assert (Hall : get_all_pending_and_running_job_ids strptime cfg token w
                 = (Ok (map id_of (flat_map (fun a => jobs_of (fst a)) answers),
                        map id_of (flat_map (fun a => jobs_of (snd a)) answers)), w')).
  { unfold get_all_pending_and_running_job_ids.
    rewrite (bind_returns _ _ _ _ _ Hids). exact Hrun. }
  unfold get_number_of_pending_and_running_jobs. rewrite (bind_returns _ _ _ _ _ Hall).
  cbn [ret fst snd]. rewrite !length_map, !length_flat_map_sum. reflexivity.
Qed.

(** C7.  For every sequence of per-project pending and running job lists
    (the bodies of the answers to the two job listings of each discovered
    project), the pending count is the sum of the lengths of the pending
    lists and the running count is the sum of the lengths of the running
    lists. *)
Theorem job_counts_are_sums (strptime : string -> option datetime) (cfg : config)
    (token : string) (project_ids : list jvalue) (answers : list (response * response))
    (rest : list (outcome response)) (w w1 : world) :
  get_all_project_ids strptime cfg token w = (Ok project_ids, w1) ->
  length answers = length project_ids ->
  Forall (fun a => status_code (fst a) = 200 /\ status_code (snd a) = 200) answers ->
  Forall (fun a => Forall has_id (json (fst a)) /\ Forall has_id (json (snd a))) answers ->
  http_script w1 = job_answers answers ++ rest ->
  fst (get_number_of_pending_and_running_jobs strptime cfg token w)
  = Ok (sum_lengths (map (fun a => json (fst a)) answers),
        sum_lengths (map (fun a => json (snd a)) answers)).
Proof.
  intros Hids Hlen Hst Hjobs Hs.
  assert (Hsame : Forall (fun a => jobs_of (fst a) = json (fst a)
                                   /\ jobs_of (snd a) = json (snd a)) answers).
  { eapply Forall_impl; [exact Hst|]. intros a [Hp Hr]. unfold jobs_of.
    rewrite Hp, Hr. auto. }
  destruct (job_counts_run strptime cfg token project_ids answers rest w w1 Hids Hlen)
    as (w' & Hrun & _); [|exact Hs|].
  - clear -Hjobs Hsame. induction Hjobs as [|a answers [Hp Hr] _ IH]; [constructor|].
    apply Forall_cons in Hsame. destruct Hsame as [[Hsp Hsr] Hsame].
    constructor; [rewrite Hsp, Hsr; auto|auto].
  - rewrite Hrun. cbn [fst].
    assert (Hp : map (fun a => jobs_of (fst a)) answers = map (fun a => json (fst a)) answers).
    { apply map_ext_Forall. eapply Forall_impl; [exact Hsame|]. intros a [Hp _]. exact Hp. }
    assert (Hr : map (fun a => jobs_of (snd a)) answers = map (fun a => json (snd a)) answers).
    { apply map_ext_Forall. eapply Forall_impl; [exact Hsame|]. intros a [_ Hr]. exact Hr. }
    rewrite Hp, Hr. reflexivity.
Qed.

(** C3.  A job listing answered with a status other than 200 yields an
    empty list of jobs and raises nothing, whichever the scope; and when the
    job listings of the discovered projects are answered with any mix of
    statuses, the aggregation asks every project in turn and returns counts
    to which each answer with another status than 200 contributes zero. *)
Theorem failed_job_listing_counts_zero (strptime : string -> option datetime)
    (cfg : config) (token : string) (project_ids : list jvalue)
    (answers : list (response * response)) (rest : list (outcome response))
    (w w1 : world) :
  get_all_project_ids strptime cfg token w = (Ok project_ids, w1) ->
  length answers = length project_ids ->
  Forall (fun a => Forall has_id (jobs_of (fst a)) /\ Forall has_id (jobs_of (snd a))) answers ->
  http_script w1 = job_answers answers ++ rest ->
  (forall project_id res script w0,
      status_code res <> 200 ->
      http_script w0 = Returns res :: script ->
      fst (get_pending_jobs cfg project_id token w0) = Ok []
      /\ fst (get_running_jobs cfg project_id token w0) = Ok [])
  /\ (forall res, status_code res <> 200 -> length (jobs_of res) = 0%nat)
  /\ exists w',
       get_number_of_pending_and_running_jobs strptime cfg token w
       = (Ok (sum_lengths (map (fun a => jobs_of (fst a)) answers),
              sum_lengths (map (fun a => jobs_of (snd a)) answers)), w')
       /\ http_log w' = http_log w1 ++ job_requests cfg token project_ids
       /\ http_script w' = rest.
Proof.
  intros Hids Hlen Hjobs Hs.
  assert (Hzero : forall res, status_code res <> 200 -> jobs_of res = []).
  { intros res Hst. unfold jobs_of. apply Z.eqb_neq in Hst. rewrite Hst. reflexivity. }
  split; [|split].
  - intros project_id res script w0 Hst Hw0.
    destruct (get_pending_jobs_returns cfg project_id token res script w0 Hw0)
      as (wp & Hp & _).
    destruct (get_running_jobs_returns cfg project_id token res script w0 Hw0)
      as (wr & Hr & _).
    rewrite Hp, Hr, (Hzero res Hst). auto.
  - intros res Hst. rewrite (Hzero res Hst). reflexivity.
  - exact (job_counts_run strptime cfg token project_ids answers rest w w1
             Hids Hlen Hjobs Hs).
Qed.

Lemma sample_job_lists_have_ids :
  Forall (fun a => Forall has_id (json (fst a)) /\ Forall has_id (json (snd a)))
    sample_job_lists.
Proof. repeat constructor; eexists; vm_compute; reflexivity. Defined.

Lemma job_counts_are_sums_sample :
  fst (get_number_of_pending_and_running_jobs strptime_padded sample_cfg "glpat-sample"
         (sample_world (Returns sample_three_projects :: job_answers sample_job_lists)))
  = Ok (8%nat, 3%nat).
Proof.
  apply (job_counts_are_sums strptime_padded sample_cfg "glpat-sample"
           [JInt 11; JInt 12; JInt 13] sample_job_lists []
           (sample_world (Returns sample_three_projects :: job_answers sample_job_lists))
           (snd (get_all_project_ids strptime_padded sample_cfg "glpat-sample"
                   (sample_world (Returns sample_three_projects
                                  :: job_answers sample_job_lists))))).
  - vm_compute. reflexivity.
  - reflexivity.
  - repeat constructor.
  - exact sample_job_lists_have_ids.
  - vm_compute. reflexivity.
Defined.

Lemma sample_job_lists_failing_have_ids :
  Forall (fun a => Forall has_id (jobs_of (fst a)) /\ Forall has_id (jobs_of (snd a)))
    sample_job_lists_failing.
Proof. repeat constructor; eexists; vm_compute; reflexivity. Defined.

Lemma failed_job_listing_counts_zero_sample :
  exists w',
    get_number_of_pending_and_running_jobs strptime_padded sample_cfg "glpat-sample"
      (sample_world (Returns sample_three_projects :: job_answers sample_job_lists_failing))
    = (Ok (8%nat, 3%nat), w')
    /\ length (http_log w') = 7%nat.
Proof.
  destruct (proj2 (proj2
    (failed_job_listing_counts_zero strptime_padded sample_cfg "glpat-sample"
       [JInt 11; JInt 12; JInt 13] sample_job_lists_failing []
       (sample_world (Returns sample_three_projects :: job_answers sample_job_lists_failing))
       (snd (get_all_project_ids strptime_padded sample_cfg "glpat-sample"
               (sample_world (Returns sample_three_projects
                              :: job_answers sample_job_lists_failing))))
       ltac:(vm_compute; reflexivity) eq_refl sample_job_lists_failing_have_ids
       ltac:(vm_compute; reflexivity))))
    as (w' & Hrun & Hlog & _).
  exists w'. split; [exact Hrun|]. rewrite Hlog. reflexivity.
Defined.

(** ** The retry decorator (C5, C10) *)

(** The retry predicate compares the code read by [error_code]. *)
Lemma giveup_reads_error_code response :
  no_request_limit_exceeded_code (ClientError response)
  = negb (String.eqb (error_code response) "RequestLimitExceeded").
Proof. reflexivity. Qed.

(** C5.  For each of the three decorated backend calls: when the call raises
    rate-limit client errors on its first attempts, up to seven of them, and
    then succeeds, the wrapper returns the result of the successful attempt,
    having made one call per error and one more (eight for seven errors);
    when the first attempt raises a client error with any other code, that
    error comes back after exactly one call; and whatever the service does,
    between one and eight calls are made. *)
Theorem rate_limit_retried (A : Type) (wrapper : M A) (script : world -> list (outcome A))
    (request : sdk_request) :
  backend_call A wrapper script request ->
  (forall w errs v rest,
      Forall rate_limited errs ->
      (length errs <= 7)%nat ->
      script w = map Raises errs ++ Returns v :: rest ->
      exists w',
        wrapper w = (Ok v, w')
        /\ sdk_log w' = sdk_log w ++ repeat request (S (length errs))
        /\ script w' = rest)
  /\ (forall w response rest,
         error_code response <> "RequestLimitExceeded" ->
         script w = Raises (ClientError response) :: rest ->
         exists w',
           wrapper w = (Raise (ClientError response), w')
           /\ sdk_log w' = sdk_log w ++ [request]
           /\ script w' = rest)
  /\ (forall w, exists k : nat,
         (1 <= k <= 8)%nat
         /\ sdk_log (snd (wrapper w)) = sdk_log w ++ repeat request k).
Proof.
  intros Hcall. split; [|split].
  - intros w errs v rest Herrs Hlen Hs.
    destruct (backend_call_scripted _ _ _ _ Hcall) as (target & -> & Ho & Ht & Hl).
    apply (retried_then_returns target script request Ho Ht Hl); [|exact Hlen|exact Hs].
    eapply Forall_impl; [exact Herrs|]. apply rate_limited_retried.
  - intros w response rest Hcode Hs.
    exact (backend_call_gives_up A wrapper script request response rest w Hcall Hcode Hs).
  - intros w.
    destruct (backend_call_scripted _ _ _ _ Hcall) as (target & -> & Ho & Ht & Hl).
    apply (calls_bounded target script request Ht Hl).
Qed.

Lemma sample_rate_limited : rate_limited sample_rate_limit_error.
Proof.
  exists (<["Error" := <["Code" := "RequestLimitExceeded"]> ∅]> ∅),
         (<["Code" := "RequestLimitExceeded"]> ∅).
  split; [reflexivity|]. split; reflexivity.
Defined.

(** Seven rate-limit errors, then the token. *)
Lemma rate_limit_retried_sample :
  exists w',
    get_parameter "/gitlab/runner/token" true
      (sample_ssm_world (map Raises (repeat sample_rate_limit_error 7)
                         ++ [Returns "glpat-sample"]))
    = (Ok "glpat-sample", w')
    /\ length (sdk_log w') = 8%nat.
Proof.
  destruct (proj1 (rate_limit_retried string (get_parameter "/gitlab/runner/token" true)
                     ssm_script (GetParameter "/gitlab/runner/token" true)
                     (call_get_parameter "/gitlab/runner/token" true))
              (sample_ssm_world (map Raises (repeat sample_rate_limit_error 7)
                                 ++ [Returns "glpat-sample"]))
              (repeat sample_rate_limit_error 7) "glpat-sample" []
              ltac:(repeat constructor; exact sample_rate_limited)
              ltac:(simpl; lia) eq_refl)
    as (w' & Hrun & Hlog & _).
  exists w'. split; [exact Hrun|]. rewrite Hlog. reflexivity.
Defined.

(** C10.  For each of the three decorated backend calls: a client error
    whose response holds no error code at all is read as having the code
    "Unknown", which is not the rate-limit code, so the retry predicate gives
    up on it and the error comes back after exactly one call. *)
Theorem missing_code_not_retried (A : Type) (wrapper : M A)
    (script : world -> list (outcome A)) (request : sdk_request)
    (e : exn) (rest : list (outcome A)) (w : world) :
  backend_call A wrapper script request ->
  without_code e ->
  script w = Raises e :: rest ->
  no_request_limit_exceeded_code e = true
  /\ (forall response, e = ClientError response -> error_code response = "Unknown")
  /\ exists w',
       wrapper w = (Raise e, w')
       /\ sdk_log w' = sdk_log w ++ [request]
       /\ script w' = rest.
Proof.
  intros Hcall (response & -> & Hcode) Hs.
  assert (Hunknown : error_code response = "Unknown").
  { unfold error_code. rewrite Hcode. reflexivity. }
  split; [|split].
  - rewrite giveup_reads_error_code, Hunknown. reflexivity.
  - intros response' [= <-]. exact Hunknown.
  - apply (backend_call_gives_up A wrapper script request response rest w Hcall);
      [|exact Hs].
    rewrite Hunknown. discriminate.
Qed.

Lemma missing_code_not_retried_sample :
  exists w',
    get_parameter "/gitlab/runner/token" true
      (sample_ssm_world [Raises sample_bare_error; Returns "glpat-sample"])
    = (Raise sample_bare_error, w')
    /\ sdk_log w' = [GetParameter "/gitlab/runner/token" true]
    /\ ssm_script w' = [Returns "glpat-sample"].
Proof.
  exact (proj2 (proj2
    (missing_code_not_retried string (get_parameter "/gitlab/runner/token" true)
       ssm_script (GetParameter "/gitlab/runner/token" true)
       sample_bare_error [Returns "glpat-sample"]
       (sample_ssm_world [Raises sample_bare_error; Returns "glpat-sample"])
       (call_get_parameter "/gitlab/runner/token" true)
       (ex_intro _ ∅ (conj eq_refl eq_refl)) eq_refl))).
Defined.

(** ** The load (C1) *)

(** C1, as the code has it.  With no healthy in-service instance the load is
    100 whatever the number of running jobs.  With a positive number of such
    instances and a per-instance capacity other than zero, the load is a
    float: the quotient of [100 * running_jobs] by
    [healthy_instances * runners_per_instance] rounded to a nearest double
    (both operands being below 2^53 in size, so that their conversion to
    float loses nothing); it may exceed 100. *)
Theorem runners_overall_load_spec (cfg : config) (running_jobs healthy : Z) :
  (healthy = 0 -> runners_overall_load cfg running_jobs healthy = Ok (PInt 100))
  /\ (0 < healthy ->
      RUNNERS_PER_INSTANCE cfg <> 0 ->
      Z.abs (100 * running_jobs) < 2 ^ 53 ->
      Z.abs (healthy * RUNNERS_PER_INSTANCE cfg) < 2 ^ 53 ->
      exists f,
        runners_overall_load cfg running_jobs healthy = Ok (PFloat f)
        /\ nearest_double f (100 * running_jobs) (healthy * RUNNERS_PER_INSTANCE cfg)).
Proof.
  split.
  - intros ->. reflexivity.
  - intros Hh Hc. set (a := 100 * running_jobs). set (b := healthy * RUNNERS_PER_INSTANCE cfg).
    intros Ha Hb. assert (Hbnz : b <> 0) by (subst b; nia).
    destruct (float_of_int_normal b Hbnz Hb) as (m2 & e2 & Hfd & Hd2 & He2 & Hm2).
    unfold runners_overall_load. replace (healthy =? 0) with false by (symmetry; lia).
    cbn [negb]. fold a b. rewrite Hfd.
    destruct (Z.eq_dec a 0) as [Hz|Hanz].
    + rewrite Hz. exists (S754_zero (xorb false (b <? 0))). split; reflexivity.
    + destruct (float_of_int_normal a Hanz Ha) as (m1 & e1 & Hfn & Hd1 & He1 & Hm1).
      destruct (SFdiv_near (a <? 0) (b <? 0) m1 m2 e1 e2 Hd1 Hd2 He1 He2)
        as (M & k & Hdiv & Hk & HM & Hnear).
      exists (S754_finite (xorb (a <? 0) (b <? 0)) M (e1 - e2 - 53 + k)).
      rewrite Hfn. cbn [rbind float_truediv is_zero]. rewrite Hdiv.
      split; [reflexivity|]. split; [exact HM|]. split.
      * destruct (Z.ltb_spec a 0), (Z.ltb_spec b 0); cbn [xorb]; nia.
      * rewrite Hm1, Hm2 in Hnear.
        pose proof (half_ulp_scaled (Z.pos M) (Z.abs a) (Z.abs b) k (- e1) (- e2)
                      ltac:(lia) ltac:(lia) ltac:(lia) Hnear) as Hscaled.
        cbv zeta in Hscaled. rewrite !Z.opp_involutive in Hscaled. exact Hscaled.
Qed.

(** Two healthy instances of four runners each and four running jobs: a load
    of 50.0, which is 400 / 8 to the last place; no healthy instance: a load
    of 100. *)
Lemma runners_overall_load_sample :
  runners_overall_load sample_cfg 4 2 = Ok (PFloat fifty)
  /\ nearest_double fifty 400 8
  /\ holds_integer fifty 50
  /\ runners_overall_load sample_cfg 4 0 = Ok (PInt 100).
Proof.
  destruct (proj2 (runners_overall_load_spec sample_cfg 4 2)
              ltac:(lia) ltac:(discriminate) ltac:(reflexivity) ltac:(reflexivity))
    as (f & Hload & Hnear).
  injection Hload as <-.
  split; [reflexivity|]. split; [exact Hnear|]. split.
  - split; [discriminate|reflexivity].
  - exact (proj1 (runners_overall_load_spec sample_cfg 4 0) eq_refl).
Defined.

(** With a capacity of zero runners per instance and a healthy instance, no
    load is computed: the division raises. *)
Lemma zero_capacity_raises :
  runners_overall_load sample_cfg_without_runners 0 1 = Raise ZeroDivisionError
  /\ ~ (exists load, runners_overall_load sample_cfg_without_runners 0 1 = Ok load).
Proof.
  split; [reflexivity|]. intros [load H]. discriminate H.
Qed.

(** * Further properties *)

(** ** The HTTP GET and its retries *)

Lemma requests_get_timeout url token script w :
  http_script w = Raises Timeout :: script ->
  requests_get url token w = (Raise Timeout, snd (requests_get url token w))
  /\ http_script (snd (requests_get url token w)) = script
  /\ http_log (snd (requests_get url token w)) = http_log w ++ [(url, token)]
  /\ http_only w (snd (requests_get url token w)).
Proof.
  intros Hs. unfold requests_get. rewrite Hs. simpl. repeat split.
Qed.

(** Timeouts short of the allowed retries are gone through. *)
Lemma retry_after_timeouts url token k res rest more w :
  (k <= more)%nat ->
  http_script w = timeouts k ++ Returns res :: rest ->
  exists w',
    retry_exception is_Timeout (fun _ => false) more (requests_get url token) w = (Ok res, w')
    /\ http_script w' = rest
    /\ http_log w' = http_log w ++ repeat (url, token) (S k)
    /\ http_only w w'.
Proof.
  revert more w. induction k as [|k IH]; intros more w Hk Hs.
  - destruct (get_request_returns url token res rest w Hs) as (w' & _ & Hs' & Hl' & Ho').
    exists (snd (requests_get url token w)). split.
    + apply retry_exception_returns. unfold requests_get. rewrite Hs. reflexivity.
    + simpl. rewrite Hs. repeat split.
  - destruct more as [|more]; [lia|].
    destruct (requests_get_timeout url token _ w Hs) as (Hget & Hs1 & Hl1 & Ho1).
    destruct (IH more _ ltac:(lia) Hs1) as (w' & Hrun & Hs' & Hl' & Ho').
    exists w'. split; [|split; [exact Hs'|split]].
    + rewrite <- Hrun. apply (retry_exception_again _ _ _ _ _ Timeout); [exact Hget| |]; reflexivity.
    + rewrite Hl', Hl1, <- app_assoc. reflexivity.
    + exact (http_only_trans _ _ _ Ho1 Ho').
Qed.

(** One timeout more than there are retries left comes back as the error. *)
Lemma retry_timeouts_exhausted url token rest more w :
  http_script w = timeouts (S more) ++ rest ->
  exists w',
    retry_exception is_Timeout (fun _ => false) more (requests_get url token) w
    = (Raise Timeout, w')
    /\ http_script w' = rest
    /\ http_log w' = http_log w ++ repeat (url, token) (S more)
    /\ http_only w w'.
Proof.
  revert w. induction more as [|more IH]; intros w Hs.
  - destruct (requests_get_timeout url token _ w Hs) as (Hget & Hs1 & Hl1 & Ho1).
    exists (snd (requests_get url token w)). split; [|auto].
    cbn [retry_exception]. rewrite Hget. reflexivity.
  - destruct (requests_get_timeout url token _ w Hs) as (Hget & Hs1 & Hl1 & Ho1).
    destruct (IH _ Hs1) as (w' & Hrun & Hs' & Hl' & Ho').
    exists w'. split; [|split; [exact Hs'|split]].
    + rewrite <- Hrun. apply (retry_exception_again _ _ _ _ _ Timeout); [exact Hget| |]; reflexivity.
    + rewrite Hl', Hl1, <- app_assoc. reflexivity.
    + exact (http_only_trans _ _ _ Ho1 Ho').
Qed.

(** X1.  The HTTP GET goes through timeouts: after up to seven requests that
    time out, the answer to the next request for the same URL is returned;
    when eight requests in a row time out, the timeout itself is raised and
    no ninth request is made. *)
Theorem get_request_retries_timeouts (url token : string) (rest : list (outcome response))
    (w : world) :
  (forall k res,
      (k <= 7)%nat ->
      http_script w = timeouts k ++ Returns res :: rest ->
      exists w',
        get_request url token w = (Ok res, w')
        /\ http_script w' = rest
        /\ http_log w' = http_log w ++ repeat (url, token) (S k))
  /\ (http_script w = timeouts 8 ++ rest ->
      exists w',
        get_request url token w = (Raise Timeout, w')
        /\ http_script w' = rest
        /\ http_log w' = http_log w ++ repeat (url, token) 8).
Proof.
  split.
  - intros k res Hk Hs.
    destruct (retry_after_timeouts url token k res rest 7 w Hk Hs)
      as (w' & Hrun & Hs' & Hl' & _).
    exists w'. auto.
  - intros Hs.
    destruct (retry_timeouts_exhausted url token rest 7 w Hs) as (w' & Hrun & Hs' & Hl' & _).
    exists w'. auto.
Qed.

(** X2.  Nothing but a timeout is retried by the HTTP GET: an answer is
    returned as it is whatever its status, and any other exception is raised
    again, each after a single request. *)
Theorem get_request_retries_nothing_else (url token : string)
    (rest : list (outcome response)) (w : world) :
  (forall res,
      http_script w = Returns res :: rest ->
      exists w',
        get_request url token w = (Ok res, w')
        /\ http_script w' = rest
        /\ http_log w' = http_log w ++ [(url, token)])
  /\ (forall e,
        e <> Timeout ->
        http_script w = Raises e :: rest ->
        exists w',
          get_request url token w = (Raise e, w')
          /\ http_script w' = rest
          /\ http_log w' = http_log w ++ [(url, token)]).
Proof.
  split.
  - intros res Hs.
    destruct (get_request_returns url token res rest w Hs) as (w' & Hrun & Hs' & Hl' & _).
    exists w'. auto.
  - intros e He Hs. exists (snd (requests_get url token w)). split; [|split].
    + unfold get_request, on_exception. apply retry_exception_passes.
      * unfold requests_get. rewrite Hs. reflexivity.
      * left. destruct e; try reflexivity. congruence.
    + simpl. rewrite Hs. reflexivity.
    + reflexivity.
Qed.

(** ** The backend calls beyond the rate limit *)

Section Exhaustion.

Context {A : Type} (target : M A) (script : world -> list (outcome A)) (request : sdk_request).

Hypothesis target_outcome :
  forall w, fst (target w) = next_outcome EndpointConnectionError (script w).
Hypothesis target_script : forall w, script (snd (target w)) = tail (script w).
Hypothesis target_log : forall w, sdk_log (snd (target w)) = sdk_log w ++ [request].

(** When every allowed call but the last raised an error that is retried,
    whatever the last call raises comes back. *)
Lemma retried_then_raises catches giveup errs e rest w :
  Forall (fun e0 => catches e0 = true /\ giveup e0 = false) errs ->
  script w = map Raises errs ++ Raises e :: rest ->
  exists w',
    retry_exception catches giveup (length errs) target w = (Raise e, w') /\
    sdk_log w' = sdk_log w ++ repeat request (S (length errs)) /\
    script w' = rest.
Proof.
  intros Herrs. revert w.
  induction Herrs as [|e0 errs [Hc Hg] _ IH]; intros w Hs.
  - exists (snd (target w)). split; [|split].
    + cbn [length retry_exception].
      rewrite (target_run target script target_outcome w), Hs. cbn [app map next_outcome result_of].
      destruct (catches e); [destruct (giveup e)|]; reflexivity.
    + apply target_log.
    + rewrite target_script, Hs. reflexivity.
  - destruct (IH (snd (target w))) as (w' & Hrun & Hl & Hs').
    { rewrite target_script, Hs. reflexivity. }
    exists w'. split; [|split; [|exact Hs']].
    + rewrite <- Hrun. apply (retry_exception_again _ _ _ _ _ e0); [|exact Hc|exact Hg].
      rewrite (target_run target script target_outcome w), Hs. reflexivity.
    + rewrite Hl, target_log, <- app_assoc. reflexivity.
Qed.

End Exhaustion.

(** X3.  For each of the three decorated backend calls: when the request
    rate stays exceeded, so that the first seven calls raise rate-limit
    errors, whatever the eighth call raises is raised by the wrapper, and no
    ninth call is made. *)
Theorem rate_limit_exhausted (A : Type) (wrapper : M A) (script : world -> list (outcome A))
    (request : sdk_request) (errs : list exn) (e : exn) (rest : list (outcome A))
    (w : world) :
  backend_call A wrapper script request ->
  Forall rate_limited errs ->
  length errs = 7%nat ->
  script w = map Raises errs ++ Raises e :: rest ->
  exists w',
    wrapper w = (Raise e, w')
    /\ sdk_log w' = sdk_log w ++ repeat request 8
    /\ script w' = rest.
Proof.
  intros Hcall Herrs Hlen Hs.
  destruct (backend_call_scripted _ _ _ _ Hcall) as (target & -> & Ho & Ht & Hl).
  rewrite <- Hlen.
  apply (retried_then_raises target script request Ho Ht Hl); [|exact Hs].
  eapply Forall_impl; [exact Herrs|]. apply rate_limited_retried.
Qed.

Lemma rate_limit_exhausted_sample :
  exists w',
    get_parameter "/gitlab/runner/token" true
      (sample_ssm_world (map Raises (repeat sample_rate_limit_error 8)
                         ++ [Returns "glpat-sample"]))
    = (Raise sample_rate_limit_error, w')
    /\ length (sdk_log w') = 8%nat
    /\ ssm_script w' = [Returns "glpat-sample"].
Proof.
  destruct (rate_limit_exhausted string (get_parameter "/gitlab/runner/token" true)
              ssm_script (GetParameter "/gitlab/runner/token" true)
              (repeat sample_rate_limit_error 7) sample_rate_limit_error
              [Returns "glpat-sample"]
              (sample_ssm_world (map Raises (repeat sample_rate_limit_error 8)
                                 ++ [Returns "glpat-sample"]))
              (call_get_parameter "/gitlab/runner/token" true)
              ltac:(repeat constructor; exact sample_rate_limited)
              eq_refl eq_refl)
    as (w' & Hrun & Hlog & Hscript).
  exists w'. split; [exact Hrun|]. split; [rewrite Hlog; reflexivity|exact Hscript].
Defined.

(** X4.  For each of the three decorated backend calls: an exception that
    is no client error, such as an unreachable endpoint, is never retried; it
    is raised again after a single call. *)
Theorem other_exceptions_not_retried (A : Type) (wrapper : M A)
    (script : world -> list (outcome A)) (request : sdk_request)
    (e : exn) (rest : list (outcome A)) (w : world) :
  backend_call A wrapper script request ->
  is_ClientError e = false ->
  script w = Raises e :: rest ->
  exists w',
    wrapper w = (Raise e, w')
    /\ sdk_log w' = sdk_log w ++ [request]
    /\ script w' = rest.
Proof.
  intros Hcall He Hs.
  destruct (backend_call_scripted _ _ _ _ Hcall) as (target & -> & Ho & Ht & Hl).
  apply (gives_up_at_once target script request Ho Ht Hl); [left; exact He|exact Hs].
Qed.

Lemma other_exceptions_not_retried_sample :
  exists w',
    get_parameter "/gitlab/runner/token" true
      (sample_ssm_world [Raises EndpointConnectionError; Returns "glpat-sample"])
    = (Raise EndpointConnectionError, w')
    /\ sdk_log w' = [GetParameter "/gitlab/runner/token" true]
    /\ ssm_script w' = [Returns "glpat-sample"].
Proof.
  exact (other_exceptions_not_retried string (get_parameter "/gitlab/runner/token" true)
           ssm_script (GetParameter "/gitlab/runner/token" true)
           EndpointConnectionError [Returns "glpat-sample"]
           (sample_ssm_world [Raises EndpointConnectionError; Returns "glpat-sample"])
           (call_get_parameter "/gitlab/runner/token" true) eq_refl eq_refl).
Defined.

(** ** The cursor of the next page *)

Lemma split_nonempty (c : ascii) (s : string) : split c s <> [].
Proof.
  destruct s as [|c' s]; cbn [split]; [discriminate|].
  destruct (Ascii.eqb c' c); [discriminate|]. destruct (split c s); discriminate.
Qed.

(** Without the separator in it, a text is its own single piece. *)
Lemma split_absent (c : ascii) (s : string) : occurs c s = false -> split c s = [s].
Proof.
  induction s as [|c' s IH]; cbn [occurs split]; [reflexivity|].
  intros H. apply orb_false_iff in H. destruct H as [Hc Hs].
  rewrite Hc, (IH Hs). reflexivity.
Qed.

(** The first piece is what stands before the first separator. *)
Lemma split_first (c : ascii) (u t : string) :
  occurs c u = false -> split c (u +:+ String c t) = u :: split c t.
Proof.
  induction u as [|c' u IH]; cbn [occurs]; intros H.
  - change (EmptyString +:+ String c t) with (String c t).
    cbn [split]. rewrite Ascii.eqb_refl. reflexivity.
  - apply orb_false_iff in H. destruct H as [Hc Hu].
    change (String c' u +:+ String c t) with (String c' (u +:+ String c t)).
    cbn [split]. rewrite Hc, (IH Hu). reflexivity.
Qed.

(** A text without the separator stays in the first piece of what it is put
    before. *)
Lemma split_prefix (c : ascii) (u t : string) :
  occurs c u = false ->
  exists p ps, split c t = p :: ps /\ split c (u +:+ t) = (u +:+ p) :: ps.
Proof.
  intros Hu. destruct (split c t) as [|p ps] eqn:Ht; [destruct (split_nonempty c t Ht)|].
  exists p, ps. split; [reflexivity|].
  induction u as [|c' u IH]; cbn [occurs] in Hu.
  - exact Ht.
  - apply orb_false_iff in Hu. destruct Hu as [Hc Hu].
    change (String c' u +:+ t) with (String c' (u +:+ t)).
    cbn [split]. rewrite Hc, (IH Hu). reflexivity.
Qed.

(** The pieces are one more than the separators. *)
Lemma split_two (c : ascii) (s : string) :
  occurs c s = true -> exists p q qs, split c s = p :: q :: qs.
Proof.
  induction s as [|c' s IH]; cbn [occurs split]; [discriminate|].
  destruct (Ascii.eqb c' c) eqn:Hc; cbn [orb].
  - intros _. destruct (split c s) as [|q qs] eqn:Hs; [destruct (split_nonempty c s Hs)|].
    eauto.
  - intros H. destruct (IH H) as (p & q & qs & ->). eauto.
Qed.

(** X5.  The cursor taken from a Links header is the text between the first
    [<] of the header and the first [>] after it: for a header made of any
    text free of [<], then [<], a URL free of [<] and [>], then [>] and
    anything at all, the cursor is that URL. *)
Theorem next_link_between_brackets (before url after : string) :
  occurs "<" before = false ->
  occurs "<" url = false ->
  occurs ">" url = false ->
  next_link (before +:+ String "<" (url +:+ String ">" after)) = Ok url.
Proof.
  intros Hb Hu1 Hu2. unfold next_link.
  rewrite (split_first "<" before _ Hb).
  destruct (split_prefix "<" url (String ">" after) Hu1) as (p & ps & Hp & ->).
  cbn [index lookup list_lookup rbind].
  destruct p as [|c p].
  - cbn [split] in Hp. destruct (split "<" after) as [|x xs]; discriminate Hp.
  - assert (Hc : c = ">"%char).
    { cbn [split] in Hp. change (Ascii.eqb ">" "<") with false in Hp.
      destruct (split "<" after); injection Hp as Hp _; congruence. }
    subst c. rewrite (split_first ">" url p Hu2). reflexivity.
Qed.

Lemma next_link_between_brackets_sample :
  next_link sample_links = Ok "https://x/page2".
Proof.
  exact (next_link_between_brackets EmptyString "https://x/page2"
           (substring 17 12 sample_links) eq_refl eq_refl eq_refl).
Defined.

(** X6.  A Links header yields a cursor exactly when it holds a [<]: with
    none, taking the cursor raises [IndexError], the empty header included;
    with one, some cursor is returned even when no [>] follows. *)
Theorem next_link_needs_bracket (links : string) :
  (occurs "<" links = false -> next_link links = Raise IndexError)
  /\ (occurs "<" links = true -> exists link, next_link links = Ok link).
Proof.
  unfold next_link. split; intros H.
  - rewrite (split_absent _ _ H). reflexivity.
  - destruct (split_two _ _ H) as (p & q & qs & ->).
    cbn [index lookup list_lookup rbind].
    destruct (split ">" q) as [|x xs] eqn:Hq; [destruct (split_nonempty _ _ Hq)|].
    exists x. reflexivity.
Qed.

Lemma next_link_needs_bracket_sample :
  next_link "https://x/page2" = Raise IndexError
  /\ exists link, next_link "<https://x/page2" = Ok link.
Proof.
  split.
  - exact (proj1 (next_link_needs_bracket "https://x/page2") eq_refl).
  - exact (proj2 (next_link_needs_bracket "<https://x/page2") eq_refl).
Defined.

(** ** Discovery on projects that are not as expected *)

Lemma scan_projects_app strptime cutoff (good others : list dict) (project_ids : list jvalue) :
  Forall (well_formed strptime) good ->
  scan_projects strptime cutoff (good ++ others) project_ids
  = scan_projects strptime cutoff others
      (project_ids ++ active_ids strptime cutoff good).
Proof.
  intros Hgood. revert project_ids.
  induction Hgood as [|p good Hp Hgood IH]; intros project_ids.
  - cbn [app]. change (active_ids strptime cutoff []) with (@nil jvalue).
    rewrite app_nil_r. reflexivity.
  - pose proof (scan_projects_spec strptime cutoff [p] project_ids
                  ltac:(constructor; [exact Hp|constructor])) as Hone.
    cbn [scan_projects] in Hone. cbn [app scan_projects].
    destruct (getitem p "id") as [pid|e|]; cbn [rbind] in *; try discriminate Hone.
    destruct (last_activity_of strptime p) as [t|e|]; cbn [rbind] in *; try discriminate Hone.
    injection Hone as Hone. rewrite Hone, IH.
    change (p :: good) with ([p] ++ good). rewrite active_ids_app, app_assoc. reflexivity.
Qed.

(** When the scan of a page raises, discovery raises the same, having
    requested the pages up to that one. *)
Lemma get_all_project_ids_scan_raises strptime cfg token (pre : list (response * string))
    (res : response) (e : exn) rest w :
  Forall (inner_page strptime) pre ->
  status_code res = 200 ->
  scan_projects strptime (clock w - timedelta_hours 4) (json res)
    (active_ids strptime (clock w - timedelta_hours 4)
       (flat_map (fun page => json (fst page)) pre))
  = Raise e ->
  http_script w = map (fun page => Returns (fst page)) pre ++ Returns res :: rest ->
  exists w',
    get_all_project_ids strptime cfg token w = (Raise e, w')
    /\ http_script w' = rest
    /\ http_log w' = http_log w ++ map (fun l => (l, token)) (first_link cfg :: map snd pre).
Proof.
  intros Hpre Hst Hscan Hs.
  set (cutoff := clock w - timedelta_hours 4) in *.
  assert (Hrun : get_all_project_ids strptime cfg token w
                 = project_pages strptime (length pre + S (S (length rest))) cutoff token
                     (first_link cfg) [] w).
  { unfold get_all_project_ids, bind, utcnow. fold cutoff. f_equal.
    rewrite Hs, length_app, length_map. simpl. lia. }
  destruct (project_pages_inner strptime cutoff token pre Hpre (S (S (length rest)))
              (first_link cfg) [] _ w Hs) as (w1 & Hrun1 & Hs1 & Hl1 & _).
  rewrite Hrun1 in Hrun. cbn [app] in Hrun.
  destruct (get_request_returns (link_after (first_link cfg) pre) token res _ w1 Hs1)
    as (w2 & Hget & Hs2 & Hl2 & _).
  exists w2. split; [|split; [exact Hs2|]].
  - rewrite Hrun. cbn [project_pages]. rewrite (bind_returns _ _ _ _ _ Hget).
    rewrite Hst. cbn [Z.eqb Pos.eqb negb]. rewrite Hscan. reflexivity.
  - rewrite Hl2, Hl1, <- app_assoc, <- links_read_after, map_app. reflexivity.
Qed.

(** X7.  A project that is not as expected makes discovery raise, and with
    it the ids gathered before are lost: on the first such project of a page
    answered with status 200, a missing [id] raises [KeyError] for that key;
    with the id there, a missing [last_activity_at] raises [KeyError] for
    that one, a stamp that is no text raises [TypeError], and a text that the
    date format does not match raises [ValueError].  The header of the page
    plays no part, and no further page is requested. *)
Theorem discovery_raises_on_malformed_project (strptime : string -> option datetime)
    (cfg : config) (token : string) (pre : list (response * string)) (res : response)
    (good others : list dict) (bad : dict) (rest : list (outcome response)) (w : world) :
  Forall (inner_page strptime) pre ->
  status_code res = 200 ->
  json res = good ++ bad :: others ->
  Forall (well_formed strptime) good ->
  http_script w = map (fun page => Returns (fst page)) pre ++ Returns res :: rest ->
  let raises e :=
    exists w', get_all_project_ids strptime cfg token w = (Raise e, w')
               /\ http_script w' = rest in
  (bad !! "id" = None -> raises (KeyError "id"))
  /\ (is_Some (bad !! "id") -> bad !! "last_activity_at" = None ->
      raises (KeyError "last_activity_at"))
  /\ (is_Some (bad !! "id") ->
      bad !! "last_activity_at" = Some JNull
      \/ (exists z, bad !! "last_activity_at" = Some (JInt z)) ->
      raises TypeError)
  /\ (is_Some (bad !! "id") ->
      forall s, bad !! "last_activity_at" = Some (JStr s) -> strptime s = None ->
      raises ValueError).
Proof.
  intros Hpre Hst Hjson Hgood Hs raises.
  assert (Hraise : forall e,
             (forall ids, scan_projects strptime (clock w - timedelta_hours 4)
                            (bad :: others) ids = Raise e) ->
             raises e).
  { intros e He.
    destruct (get_all_project_ids_scan_raises strptime cfg token pre res e rest w Hpre Hst)
      as (w' & Hrun & Hs' & _); [|exact Hs|exists w'; auto].
    rewrite Hjson, (scan_projects_app _ _ _ _ _ Hgood). apply He. }
  repeat split.
  - intros Hid. apply Hraise. intros ids. cbn [scan_projects]. unfold getitem at 1.
    rewrite Hid. reflexivity.
  - intros [pid Hid] Hla. apply Hraise. intros ids. cbn [scan_projects].
    unfold getitem at 1. rewrite Hid. cbn [rbind]. unfold last_activity_of, getitem.
    rewrite Hla. reflexivity.
  - intros [pid Hid] Hla. apply Hraise. intros ids. cbn [scan_projects].
    unfold getitem at 1. rewrite Hid. cbn [rbind]. unfold last_activity_of, getitem.
    destruct Hla as [Hla|[z Hla]]; rewrite Hla; reflexivity.
  - intros [pid Hid] s Hla Hparse. apply Hraise. intros ids. cbn [scan_projects].
    unfold getitem at 1. rewrite Hid. cbn [rbind]. unfold last_activity_of, getitem.
    rewrite Hla. cbn [rbind]. rewrite Hparse. reflexivity.
Qed.

(** X8.  Discovery keeps the order of the listing and invents nothing: the
    ids it returns are a subsequence of the ids listed, page after page, so
    they are no more than the projects listed and are free of repetitions
    whenever the listed ids are. *)
Theorem discovery_keeps_order (strptime : string -> option datetime) (cfg : config)
    (token : string) (pre : list (response * string)) (last : response)
    (rest : list (outcome response)) (w : world) :
  Forall (inner_page strptime) pre ->
  final_page strptime last ->
  http_script w = map (fun page => Returns (fst page)) pre ++ Returns last :: rest ->
  let projects := flat_map (fun page => json (fst page)) pre ++ json last in
  exists ids w',
    get_all_project_ids strptime cfg token w = (Ok ids, w')
    /\ sublist ids (map id_of projects)
    /\ (length ids <= length projects)%nat
    /\ (NoDup (map id_of projects) -> NoDup ids).
Proof.
  intros Hpre Hlast Hs projects.
  destruct (get_all_project_ids_run strptime cfg token pre last rest w Hpre Hs)
    as (w' & _ & _ & _ & Hfinal & _).
  exists (active_ids strptime (clock w - timedelta_hours 4) projects), w'.
  split; [apply Hfinal, Hlast|].
  assert (Hsub : sublist (active_ids strptime (clock w - timedelta_hours 4) projects)
                   (map id_of projects)).
  { unfold active_ids. apply (fmap_sublist id_of). apply sublist_filter. }
  split; [exact Hsub|]. split.
  - apply sublist_length in Hsub. rewrite length_map in Hsub. exact Hsub.
  - intros Hnd. exact (sublist_NoDup _ _ Hnd Hsub).
Qed.

(** ** Aggregation when a job listing goes wrong *)

Lemma bind_assoc {A B C} (c : M A) (k : A -> M B) (h : B -> M C) w :
  bind (bind c k) h w = bind c (fun a => bind (k a) h) w.
Proof. unfold bind. destruct (c w) as [[a|e|] w']; reflexivity. Qed.

Lemma bind_ext {A B} (c : M A) (k k' : A -> M B) w :
  (forall a w', k a w' = k' a w') -> bind c k w = bind c k' w.
Proof. intros H. unfold bind. destruct (c w) as [[a|e|] w']; [apply H|reflexivity..]. Qed.

Lemma collect_job_ids_app cfg token (ids1 ids2 : list jvalue) pending running w :
  collect_job_ids cfg token (ids1 ++ ids2) pending running w
  = bind (collect_job_ids cfg token ids1 pending running)
         (fun found => collect_job_ids cfg token ids2 (fst found) (snd found)) w.
Proof.
  revert pending running w. induction ids1 as [|pid ids1 IH]; intros pending running w.
  - reflexivity.
  - cbn [app collect_job_ids].
    rewrite bind_assoc. apply bind_ext. intros pending_jobs w1.
    rewrite bind_assoc. apply bind_ext. intros running_jobs w2.
    rewrite bind_assoc. apply bind_ext. intros pending' w3.
    rewrite bind_assoc. apply bind_ext. intros running' w4.
    apply IH.
Qed.

(** The aggregation after the first projects have been answered. *)
Lemma collect_job_ids_after cfg token (answers : list (response * response))
    (ids1 ids2 : list jvalue) script w :
  Forall (fun a => Forall has_id (jobs_of (fst a)) /\ Forall has_id (jobs_of (snd a))) answers ->
  length ids1 = length answers ->
  http_script w = job_answers answers ++ script ->
  exists pending running w1,
    collect_job_ids cfg token (ids1 ++ ids2) [] [] w
    = collect_job_ids cfg token ids2 pending running w1
    /\ http_script w1 = script
    /\ http_log w1 = http_log w ++ job_requests cfg token ids1.
Proof.
  intros Hjobs Hlen Hs.
  destruct (collect_job_ids_spec cfg token answers Hjobs ids1 [] [] script w Hlen Hs)
    as (w1 & Hrun & Hs1 & Hl1 & _).
  eexists _, _, w1. split; [|split; [exact Hs1|exact Hl1]].
  rewrite collect_job_ids_app. rewrite (bind_returns _ _ _ _ _ Hrun). reflexivity.
Qed.

Lemma job_ids_missing_id (good others : list dict) (bad : dict) :
  Forall has_id good -> bad !! "id" = None ->
  job_ids (good ++ bad :: others) = Raise (KeyError "id").
Proof.
  intros Hgood Hbad. induction Hgood as [|job good [i Hi] _ IH].
  - cbn [app job_ids]. unfold getitem. rewrite Hbad. reflexivity.
  - cbn [app job_ids]. unfold getitem at 1. rewrite Hi. cbn [rbind]. rewrite IH. reflexivity.
Qed.

(** X9.  Only the status of an answer is forgiven, not an exception: when
    the request for a job listing raises anything but a timeout, be it for
    the pending or for the running scope of a project, the aggregation raises
    it and asks nothing further, whatever was counted for the projects
    before. *)
Theorem job_listing_exception_aborts (strptime : string -> option datetime) (cfg : config)
    (token : string) (ids1 ids2 : list jvalue) (pid : jvalue)
    (answers : list (response * response)) (e : exn) (rest : list (outcome response))
    (w w0 : world) :
  get_all_project_ids strptime cfg token w = (Ok (ids1 ++ pid :: ids2), w0) ->
  length ids1 = length answers ->
  Forall (fun a => Forall has_id (jobs_of (fst a)) /\ Forall has_id (jobs_of (snd a))) answers ->
  e <> Timeout ->
  (http_script w0 = job_answers answers ++ Raises e :: rest ->
   exists w',
     get_number_of_pending_and_running_jobs strptime cfg token w = (Raise e, w')
     /\ http_script w' = rest
     /\ http_log w' = http_log w0 ++ job_requests cfg token ids1
                      ++ [(jobs_link cfg pid "pending", token)])
  /\ (forall pending,
         http_script w0 = job_answers answers ++ Returns pending :: Raises e :: rest ->
         exists w',
           get_number_of_pending_and_running_jobs strptime cfg token w = (Raise e, w')
           /\ http_script w' = rest
           /\ http_log w' = http_log w0 ++ job_requests cfg token ids1
                            ++ [(jobs_link cfg pid "pending", token);
                                (jobs_link cfg pid "running", token)]).
Proof.
  intros Hids Hlen Hjobs He.
  assert (Hnot : is_Timeout e = false) by (destruct e; try reflexivity; congruence).
  assert (Hfail : forall url script w1,
             http_script w1 = Raises e :: script ->
             get_request url token w1 = (Raise e, snd (requests_get url token w1))
             /\ http_script (snd (requests_get url token w1)) = script
             /\ http_log (snd (requests_get url token w1)) = http_log w1 ++ [(url, token)]).
  { intros url script w1 Hs1. split; [|split].
    - unfold get_request, on_exception. apply retry_exception_passes; [|left; exact Hnot].
      unfold requests_get. rewrite Hs1. reflexivity.
    - simpl. rewrite Hs1. reflexivity.
    - reflexivity. }
  assert (Hup : forall r w',
             collect_job_ids cfg token (ids1 ++ pid :: ids2) [] [] w0 = (Raise r, w') ->
             get_number_of_pending_and_running_jobs strptime cfg token w = (Raise r, w')).
  { intros r w' Hrun. unfold get_number_of_pending_and_running_jobs.
    apply bind_raises. unfold get_all_pending_and_running_job_ids.
    rewrite (bind_returns _ _ _ _ _ Hids). exact Hrun. }
  split.
  - intros Hs.
    destruct (collect_job_ids_after cfg token answers ids1 (pid :: ids2) _ w0 Hjobs Hlen Hs)
      as (pending & running & w1 & Hrun & Hs1 & Hl1).
    destruct (Hfail (jobs_link cfg pid "pending") rest w1 Hs1) as (Hget & Hs2 & Hl2).
    eexists. split; [|split; [exact Hs2|]].
    + apply Hup. rewrite Hrun. cbn [collect_job_ids]. apply bind_raises.
      unfold get_pending_jobs. apply bind_raises. exact Hget.
    + rewrite Hl2, Hl1, <- app_assoc. reflexivity.
  - intros pending Hs.
    destruct (collect_job_ids_after cfg token answers ids1 (pid :: ids2) _ w0 Hjobs Hlen Hs)
      as (pending0 & running0 & w1 & Hrun & Hs1 & Hl1).
    destruct (get_pending_jobs_returns cfg pid token pending _ w1 Hs1)
      as (w2 & Hget2 & Hs2 & Hl2 & _).
    destruct (Hfail (jobs_link cfg pid "running") rest w2 Hs2) as (Hget & Hs3 & Hl3).
    eexists. split; [|split; [exact Hs3|]].
    + apply Hup. rewrite Hrun. cbn [collect_job_ids].
      rewrite (bind_returns _ _ _ _ _ Hget2). apply bind_raises.
      unfold get_running_jobs. apply bind_raises. exact Hget.
    + rewrite Hl3, Hl2, Hl1, <- !app_assoc. reflexivity.
Qed.

(** X10.  A job without an [id] in a job listing answered with status 200
    makes the aggregation raise [KeyError] for that key, once both listings
    of the project have been requested: the ids are taken only after the two
    requests. *)
Theorem job_without_id_aborts (strptime : string -> option datetime) (cfg : config)
    (token : string) (ids1 ids2 : list jvalue) (pid : jvalue)
    (answers : list (response * response)) (pending running : response)
    (good others : list dict) (bad : dict) (rest : list (outcome response))
    (w w0 : world) :
  get_all_project_ids strptime cfg token w = (Ok (ids1 ++ pid :: ids2), w0) ->
  length ids1 = length answers ->
  Forall (fun a => Forall has_id (jobs_of (fst a)) /\ Forall has_id (jobs_of (snd a))) answers ->
  http_script w0 = job_answers answers ++ Returns pending :: Returns running :: rest ->
  Forall has_id good ->
  bad !! "id" = None ->
  jobs_of pending = good ++ bad :: others
  \/ (Forall has_id (jobs_of pending) /\ jobs_of running = good ++ bad :: others) ->
  exists w',
    get_number_of_pending_and_running_jobs strptime cfg token w = (Raise (KeyError "id"), w')
    /\ http_script w' = rest
    /\ http_log w' = http_log w0 ++ job_requests cfg token (ids1 ++ [pid]).
Proof.
  intros Hids Hlen Hjobs Hs Hgood Hbad Hwhich.
  destruct (collect_job_ids_after cfg token answers ids1 (pid :: ids2) _ w0 Hjobs Hlen Hs)
    as (pending0 & running0 & w1 & Hrun & Hs1 & Hl1).
  destruct (get_pending_jobs_returns cfg pid token pending _ w1 Hs1)
    as (w2 & Hget2 & Hs2 & Hl2 & _).
  destruct (get_running_jobs_returns cfg pid token running _ w2 Hs2)
    as (w3 & Hget3 & Hs3 & Hl3 & _).
  assert (Hextend : forall ids jobs,
             jobs = good ++ bad :: others ->
             extend_with_ids ids jobs = Raise (KeyError "id")).
  { intros ids jobs ->. unfold extend_with_ids.
    rewrite (job_ids_missing_id good others bad Hgood Hbad).
    replace (0 <? length (good ++ bad :: others))%nat with true; [reflexivity|].
    symmetry. apply Nat.ltb_lt. rewrite length_app. simpl. lia. }
  exists w3. split; [|split; [exact Hs3|]].
  - unfold get_number_of_pending_and_running_jobs. apply bind_raises.
    unfold get_all_pending_and_running_job_ids. rewrite (bind_returns _ _ _ _ _ Hids).
    rewrite Hrun. cbn [collect_job_ids].
    rewrite (bind_returns _ _ _ _ _ Hget2), (bind_returns _ _ _ _ _ Hget3).
    destruct Hwhich as [Hp|[Hp Hr]].
    + rewrite (Hextend _ _ Hp). reflexivity.
    + rewrite (extend_with_ids_spec _ _ Hp), bind_lift_ok, (Hextend _ _ Hr). reflexivity.
  - rewrite Hl3, Hl2, Hl1. unfold job_requests. rewrite flat_map_app. cbn [flat_map].
    rewrite app_nil_r, <- !app_assoc. reflexivity.
Qed.

(** ** The autoscaling group at its edges *)

Lemma describe_returns names groups rest w :
  asg_script w = Returns groups :: rest ->
  exists w',
    describe_auto_scaling_groups names w = (Ok groups, w') /\
    asg_script w' = rest /\
    sdk_log w' = sdk_log w ++ [DescribeAutoScalingGroups names] /\
    http_script w' = http_script w /\
    http_log w' = http_log w /\
    clock w' = clock w /\
    ssm_script w' = ssm_script w /\
    cw_script w' = cw_script w.
Proof.
  intros Hs. eexists. split.
  - unfold describe_auto_scaling_groups, on_exception. apply retry_exception_returns.
    unfold asg_describe_auto_scaling_groups. rewrite Hs. reflexivity.
  - simpl. repeat split.
Qed.

Lemma count_filter_none {A} (P : A -> Prop) `{forall x, Decision (P x)} (l : list A) :
  length (filter P l) = 0%nat <-> Forall (fun x => ~ P x) l.
Proof.
  induction l as [|x l IH]; [split; [constructor|reflexivity]|].
  rewrite filter_cons, Forall_cons. destruct (decide (P x)) as [Hx|Hx]; simpl.
  - split; [discriminate|]. intros [Hn _]. contradiction.
  - rewrite IH. tauto.
Qed.

Lemma count_filter_all {A} (P : A -> Prop) `{forall x, Decision (P x)} (l : list A) :
  length (filter P l) = length l <-> Forall P l.
Proof.
  induction l as [|x l IH]; [split; [constructor|reflexivity]|].
  rewrite filter_cons, Forall_cons. destruct (decide (P x)) as [Hx|Hx]; simpl.
  - rewrite <- IH. split; [intros [= Hl]; auto|intros [_ Hl]; f_equal; exact Hl].
  - pose proof (length_filter P l) as Hle. split.
    + intros Hl. exfalso. lia.
    + intros [Hp _]. contradiction.
Qed.

(** X11.  The count of healthy in-service instances at its edges: when the
    service describes no group at all, taking the first group raises
    [IndexError]; when the first group comes without an instance list, the
    count is zero. *)
Theorem healthy_count_without_instances (cfg : config)
    (rest : list (outcome (list auto_scaling_group))) (w : world) :
  (asg_script w = Returns [] :: rest ->
   fst (get_asg_healthy_instances_in_service cfg w) = Raise IndexError)
  /\ (forall groups,
         asg_script w = Returns ({| Instances := None |} :: groups) :: rest ->
         fst (get_asg_healthy_instances_in_service cfg w) = Ok 0).
Proof.
  split.
  - intros Hs. destruct (describe_returns [ASG_NAME cfg] [] rest w Hs) as (w' & Hd & _).
    unfold get_asg_healthy_instances_in_service. rewrite (bind_returns _ _ _ _ _ Hd).
    reflexivity.
  - intros groups Hs.
    destruct (describe_returns [ASG_NAME cfg] _ rest w Hs) as (w' & Hd & _).
    unfold get_asg_healthy_instances_in_service. rewrite (bind_returns _ _ _ _ _ Hd).
    reflexivity.
Qed.

(** X12.  The count of healthy in-service instances lies between zero and
    the number of instances of the first group; it is zero exactly when no
    instance is both healthy and in service, and it is the number of
    instances exactly when all of them are. *)
Theorem healthy_count_bounds (cfg : config) (group : auto_scaling_group)
    (groups : list auto_scaling_group) (rest : list (outcome (list auto_scaling_group)))
    (w : world) :
  asg_script w = Returns (group :: groups) :: rest ->
  let instances := default [] (Instances group) in
  exists n,
    fst (get_asg_healthy_instances_in_service cfg w) = Ok n
    /\ 0 <= n <= Z.of_nat (length instances)
    /\ (n = 0 <-> Forall (fun i => ~ healthy_in_service i) instances)
    /\ (n = Z.of_nat (length instances) <-> Forall healthy_in_service instances).
Proof.
  intros Hs instances.
  destruct (describe_returns [ASG_NAME cfg] _ rest w Hs) as (w' & Hd & _).
  exists (Z.of_nat (length (filter healthy_in_service instances))).
  split; [|split; [|split]].
  - unfold get_asg_healthy_instances_in_service. rewrite (bind_returns _ _ _ _ _ Hd).
    cbn [index lookup list_lookup]. rewrite bind_lift_ok. cbn [ret fst].
    rewrite count_in_service_spec. reflexivity.
  - pose proof (length_filter healthy_in_service instances). lia.
  - pose proof (count_filter_none healthy_in_service instances) as Hnone.
    rewrite <- Hnone. split; lia.
  - pose proof (count_filter_all healthy_in_service instances) as Hall.
    rewrite <- Hall. split; lia.
Qed.

Lemma healthy_count_bounds_sample :
  exists n,
    fst (get_asg_healthy_instances_in_service sample_cfg sample_fleet_world) = Ok n
    /\ 0 <= n <= 3.
Proof.
  destruct (healthy_count_bounds sample_cfg {| Instances := Some sample_fleet |} [] []
              sample_fleet_world eq_refl) as (n & Hn & Hb & _).
  exists n. split; [exact Hn|exact Hb].
Defined.

(** ** The whole invocation *)


(** Discovery and aggregation over a listing and the job answers of the
    projects found. *)
Lemma aggregation_run strptime cfg token (pre : list (response * string)) (last : response)
    (answers : list (response * response)) rest w :
  Forall (inner_page strptime) pre ->
  final_page strptime last ->
  let ids := active_ids strptime (clock w - timedelta_hours 4)
               (flat_map (fun page => json (fst page)) pre ++ json last) in
  length answers = length ids ->
  Forall (fun a => Forall has_id (jobs_of (fst a)) /\ Forall has_id (jobs_of (snd a))) answers ->
  http_script w
  = map (fun page => Returns (fst page)) pre ++ Returns last :: job_answers answers ++ rest ->
  exists w',
    get_number_of_pending_and_running_jobs strptime cfg token w
    = (Ok (sum_lengths (map (fun a => jobs_of (fst a)) answers),
           sum_lengths (map (fun a => jobs_of (snd a)) answers)), w')
    /\ http_script w' = rest
    /\ http_log w' = http_log w
                     ++ map (fun l => (l, token)) (first_link cfg :: map snd pre)
                     ++ job_requests cfg token ids
    /\ http_only w w'.
Proof.
  intros Hpre Hlast ids Hlen Hjobs Hs.
  destruct (get_all_project_ids_run strptime cfg token pre last _ w Hpre Hs)
    as (w1 & Hs1 & Hl1 & Ho1 & Hfinal & _).
  specialize (Hfinal Hlast). fold ids in Hfinal.
  destruct (collect_job_ids_spec cfg token answers Hjobs ids [] [] rest w1
              (eq_sym Hlen) Hs1) as (w' & Hrun & Hs' & Hl' & Ho').
  exists w'. split; [|split; [exact Hs'|split]].
  - assert (Hall : get_all_pending_and_running_job_ids strptime cfg token w
                   = (Ok (map id_of (flat_map (fun a => jobs_of (fst a)) answers),
                          map id_of (flat_map (fun a => jobs_of (snd a)) answers)), w')).
    { unfold get_all_pending_and_running_job_ids.
      rewrite (bind_returns _ _ _ _ _ Hfinal). exact Hrun. }
    unfold get_number_of_pending_and_running_jobs. rewrite (bind_returns _ _ _ _ _ Hall).
    cbn [ret fst snd]. rewrite !length_map, !(length_flat_map_sum). reflexivity.
  - rewrite Hl', Hl1, <- app_assoc. reflexivity.
  - exact (http_only_trans _ _ _ Ho1 Ho').
Qed.

(** The invocation up to the computation of the load. *)
Lemma handler_until_load strptime cfg token (pre : list (response * string))
    (last : response) (answers : list (response * response)) rest
    (group : auto_scaling_group) groups ssm_rest asg_rest w :
  ssm_script w = Returns token :: ssm_rest ->
  Forall (inner_page strptime) pre ->
  final_page strptime last ->
  let ids := active_ids strptime (clock w - timedelta_hours 4)
               (flat_map (fun page => json (fst page)) pre ++ json last) in
  length answers = length ids ->
  Forall (fun a => Forall has_id (jobs_of (fst a)) /\ Forall has_id (jobs_of (snd a))) answers ->
  http_script w
  = map (fun page => Returns (fst page)) pre ++ Returns last :: job_answers answers ++ rest ->
  asg_script w = Returns (group :: groups) :: asg_rest ->
  let pending_jobs := Z.of_nat (sum_lengths (map (fun a => jobs_of (fst a)) answers)) in
  let running_jobs := Z.of_nat (sum_lengths (map (fun a => jobs_of (snd a)) answers)) in
  let healthy := Z.of_nat (length (filter healthy_in_service (default [] (Instances group)))) in
  exists w',
    handler strptime cfg w
    = bind (lift (runners_overall_load cfg running_jobs healthy))
        (fun load =>
           bind time_time
             (fun timestamp =>
                put_metric_data "GitLab"
                  (metric_data timestamp pending_jobs running_jobs load))) w'
    /\ http_script w' = rest
    /\ http_log w' = http_log w
                     ++ map (fun l => (l, token)) (first_link cfg :: map snd pre)
                     ++ job_requests cfg token ids
    /\ sdk_log w' = sdk_log w ++ [GetParameter (TOKEN_SSM_PATH cfg) true;
                                  DescribeAutoScalingGroups [ASG_NAME cfg]]
    /\ cw_script w' = cw_script w
    /\ clock w' = clock w.
Proof.
  intros Hssm Hpre Hlast ids Hlen Hjobs Hs Hasg pending_jobs running_jobs healthy.
  destruct (get_parameter_returns (TOKEN_SSM_PATH cfg) true token ssm_rest w Hssm)
    as (w1 & Hget & Hs1 & Hl1 & Hc1 & Hasg1 & Hcw1 & Hsdk1).
  subst ids. rewrite <- Hc1 in Hlen. rewrite <- Hs1 in Hs.
  destruct (aggregation_run strptime cfg token pre last answers rest w1 Hpre Hlast Hlen
              Hjobs Hs) as (w2 & Hrun & Hs2 & Hl2 & _ & Hasg2 & Hcw2 & Hsdk2 & Hc2).
  rewrite <- Hasg1, <- Hasg2 in Hasg.
  destruct (describe_returns [ASG_NAME cfg] _ asg_rest w2 Hasg)
    as (w3 & Hd & _ & Hsdk3 & Hs3 & Hl3 & Hc3 & _ & Hcw3).
  exists w3. split; [|split; [|split; [|split; [|split]]]].
  - unfold handler. rewrite (bind_returns _ _ _ _ _ Hget), (bind_returns _ _ _ _ _ Hrun).
    cbn [fst snd]. fold pending_jobs running_jobs.
    assert (Hcount : get_asg_healthy_instances_in_service cfg w2 = (Ok healthy, w3)).
    { unfold get_asg_healthy_instances_in_service. rewrite (bind_returns _ _ _ _ _ Hd).
      cbn [index lookup list_lookup]. rewrite bind_lift_ok. unfold ret.
      rewrite count_in_service_spec. reflexivity. }
    rewrite (bind_returns _ _ _ _ _ Hcount). reflexivity.
  - rewrite Hs3. exact Hs2.
  - rewrite Hl3, Hl2, Hl1, Hc1. reflexivity.
  - rewrite Hsdk3, Hsdk2, Hsdk1, <- app_assoc. reflexivity.
  - rewrite Hcw3, Hcw2. exact Hcw1.
  - rewrite Hc3, Hc2. exact Hc1.
Qed.


Lemma sample_three_projects_final : final_page strptime_padded sample_three_projects.
Proof.
  split; [reflexivity|]. split; [|reflexivity].
  repeat constructor; eexists; vm_compute; reflexivity.
Defined.

Lemma sample_job_lists_jobs_have_ids :
  Forall (fun a => Forall has_id (jobs_of (fst a)) /\ Forall has_id (jobs_of (snd a)))
    sample_job_lists.
Proof. repeat constructor; eexists; vm_compute; reflexivity. Defined.


(** X14.  When the token cannot be fetched, because the parameter store
    raises something that is no client error or a client error with another
    code than the rate-limit one, the invocation ends with that exception
    after the single call to the store: GitLab is not contacted, the
    autoscaling group is not described and nothing is published. *)
Theorem handler_stops_without_token (strptime : string -> option datetime) (cfg : config)
    (e : exn) (ssm_rest : list (outcome string)) (w : world) :
  ssm_script w = Raises e :: ssm_rest ->
  is_ClientError e = false
  \/ (exists response, e = ClientError response
                       /\ error_code response <> "RequestLimitExceeded") ->
  exists w',
    handler strptime cfg w = (Raise e, w')
    /\ sdk_log w' = sdk_log w ++ [GetParameter (TOKEN_SSM_PATH cfg) true]
    /\ http_log w' = http_log w
    /\ http_script w' = http_script w
    /\ asg_script w' = asg_script w
    /\ cw_script w' = cw_script w.
Proof.
  intros Hs He. exists (snd (ssm_get_parameter (TOKEN_SSM_PATH cfg) true w)).
  split; [|simpl; repeat split].
  unfold handler. apply bind_raises. unfold get_parameter, on_exception.
  apply retry_exception_passes.
  - unfold ssm_get_parameter. rewrite Hs. reflexivity.
  - destruct He as [He|(response & -> & Hcode)]; [left; exact He|right].
    rewrite giveup_reads_error_code. apply negb_true_iff, String.eqb_neq. exact Hcode.
Qed.

Lemma handler_stops_without_token_sample :
  exists w',
    handler strptime_padded sample_cfg sample_unreachable_store
    = (Raise EndpointConnectionError, w')
    /\ http_log w' = []
    /\ cw_script w' = [Returns tt].
Proof.
  destruct (handler_stops_without_token strptime_padded sample_cfg EndpointConnectionError
              [] sample_unreachable_store eq_refl (or_introl eq_refl))
    as (w' & Hrun & _ & Hlog & _ & _ & Hcw).
  exists w'. split; [exact Hrun|]. split; assumption.
Defined.

Lemma float_of_int_finite (z : Z) :
  Z.abs z < 2 ^ 53 -> exists f, float_of_int z = Ok f.
Proof.
  intros Hz. destruct (Z.eq_dec z 0) as [->|Hnz].
  - exists (S754_zero false). reflexivity.
  - destruct (float_of_int_normal z Hnz Hz) as (m & e & Hf & _). eauto.
Qed.

Lemma count_filter_some {A} (P : A -> Prop) `{forall x, Decision (P x)} (l : list A) :
  Exists P l -> (0 < length (filter P l))%nat.
Proof.
  intros Hex. pose proof (count_filter_none P l) as Hnone.
  destruct (length (filter P l)) as [|n]; [|lia].
  destruct Hnone as [Hnone _]. specialize (Hnone eq_refl).
  apply Exists_exists in Hex. destruct Hex as (x & Hx & HP).
  rewrite Forall_forall in Hnone. destruct (Hnone x Hx HP).
Qed.

(** X15.  With a capacity of zero runners per instance and at least one
    healthy in-service instance, an invocation whose earlier stages all
    succeed ends with [ZeroDivisionError] once the autoscaling group has been
    described: it publishes nothing, not even the two job counts it holds. *)
Theorem handler_zero_capacity (strptime : string -> option datetime) (cfg : config)
    (token : string) (pre : list (response * string)) (last : response)
    (answers : list (response * response)) (rest : list (outcome response))
    (group : auto_scaling_group) (groups : list auto_scaling_group)
    (ssm_rest : list (outcome string))
    (asg_rest : list (outcome (list auto_scaling_group))) (w : world) :
  ssm_script w = Returns token :: ssm_rest ->
  Forall (inner_page strptime) pre ->
  final_page strptime last ->
  let ids := active_ids strptime (clock w - timedelta_hours 4)
               (flat_map (fun page => json (fst page)) pre ++ json last) in
  length answers = length ids ->
  Forall (fun a => Forall has_id (jobs_of (fst a)) /\ Forall has_id (jobs_of (snd a))) answers ->
  http_script w
  = map (fun page => Returns (fst page)) pre ++ Returns last :: job_answers answers ++ rest ->
  asg_script w = Returns (group :: groups) :: asg_rest ->
  RUNNERS_PER_INSTANCE cfg = 0 ->
  Exists healthy_in_service (default [] (Instances group)) ->
  100 * Z.of_nat (sum_lengths (map (fun a => jobs_of (snd a)) answers)) < 2 ^ 53 ->
  exists w',
    handler strptime cfg w = (Raise ZeroDivisionError, w')
    /\ sdk_log w' = sdk_log w ++ [GetParameter (TOKEN_SSM_PATH cfg) true;
                                  DescribeAutoScalingGroups [ASG_NAME cfg]]
    /\ cw_script w' = cw_script w.
Proof.
  intros Hssm Hpre Hlast ids Hlen Hjobs Hs Hasg Hzero Hex Hbound.
  destruct (handler_until_load strptime cfg token pre last answers rest group groups
              ssm_rest asg_rest w Hssm Hpre Hlast Hlen Hjobs Hs Hasg)
    as (w1 & Hrun & _ & _ & Hsdk1 & Hcw1 & _).
  exists w1. split; [|split; assumption].
  rewrite Hrun. pose proof (count_filter_some healthy_in_service _ Hex) as Hpos.
  set (running_jobs := Z.of_nat (sum_lengths (map (fun a => jobs_of (snd a)) answers))) in *.
  set (healthy := Z.of_nat (length (filter healthy_in_service (default [] (Instances group))))).
  assert (Hload : runners_overall_load cfg running_jobs healthy = Raise ZeroDivisionError).
  { unfold runners_overall_load. replace (healthy =? 0) with false by (symmetry; lia).
    cbn [negb]. destruct (float_of_int_finite (100 * running_jobs)) as [n ->]; [lia|].
    rewrite Hzero, Z.mul_0_r. reflexivity. }
  rewrite Hload. reflexivity.
Qed.

Lemma handler_zero_capacity_sample :
  exists w',
    handler strptime_padded sample_cfg_without_runners (sample_invocation sample_job_lists)
    = (Raise ZeroDivisionError, w')
    /\ cw_script w' = [Returns tt].
Proof.
  destruct (handler_zero_capacity strptime_padded sample_cfg_without_runners "glpat-sample"
              [] sample_three_projects sample_job_lists []
              {| Instances := Some sample_fleet |} [] [] []
              (sample_invocation sample_job_lists)
              eq_refl (List.Forall_nil _) sample_three_projects_final eq_refl
              sample_job_lists_jobs_have_ids eq_refl eq_refl eq_refl
              ltac:(constructor; split; reflexivity) ltac:(reflexivity))
    as (w' & Hrun & _ & Hcw).
  exists w'. split; assumption.
Defined.

(** ** The load when the division comes out even *)

(** The load as a quotient rounded to a nearest double. *)
Lemma runners_overall_load_near (cfg : config) (running_jobs healthy : Z) :
  0 < healthy ->
  RUNNERS_PER_INSTANCE cfg <> 0 ->
  Z.abs (100 * running_jobs) < 2 ^ 53 ->
  Z.abs (healthy * RUNNERS_PER_INSTANCE cfg) < 2 ^ 53 ->
  exists f,
    runners_overall_load cfg running_jobs healthy = Ok (PFloat f)
    /\ nearest_double f (100 * running_jobs) (healthy * RUNNERS_PER_INSTANCE cfg).
Proof.
  intros Hh Hc. set (a := 100 * running_jobs). set (b := healthy * RUNNERS_PER_INSTANCE cfg).
  intros Ha Hb. assert (Hbnz : b <> 0) by (subst b; nia).
  destruct (float_of_int_normal b Hbnz Hb) as (m2 & e2 & Hfd & Hd2 & He2 & Hm2).
  unfold runners_overall_load. replace (healthy =? 0) with false by (symmetry; lia).
  cbn [negb]. fold a b. rewrite Hfd.
  destruct (Z.eq_dec a 0) as [Hz|Hanz].
  - rewrite Hz. exists (S754_zero (xorb false (b <? 0))). split; reflexivity.
  - destruct (float_of_int_normal a Hanz Ha) as (m1 & e1 & Hfn & Hd1 & He1 & Hm1).
    destruct (SFdiv_near (a <? 0) (b <? 0) m1 m2 e1 e2 Hd1 Hd2 He1 He2)
      as (M & k & Hdiv & Hk & HM & Hnear).
    exists (S754_finite (xorb (a <? 0) (b <? 0)) M (e1 - e2 - 53 + k)).
    rewrite Hfn. cbn [rbind float_truediv is_zero]. rewrite Hdiv.
    split; [reflexivity|]. split; [exact HM|]. split.
    + destruct (Z.ltb_spec a 0), (Z.ltb_spec b 0); cbn [xorb]; nia.
    + rewrite Hm1, Hm2 in Hnear.
      pose proof (half_ulp_scaled (Z.pos M) (Z.abs a) (Z.abs b) k (- e1) (- e2)
                    ltac:(lia) ltac:(lia) ltac:(lia) Hnear) as Hscaled.
      cbv zeta in Hscaled. rewrite !Z.opp_involutive in Hscaled. exact Hscaled.
Qed.

(** A nearest double of a quotient that is an integer is that integer. *)
Lemma nearest_double_exact (f : spec_float) (a b q : Z) :
  b <> 0 -> a = q * b -> Z.abs a < 2 ^ 53 - 1 ->
  nearest_double f a b -> holds_integer f q.
Proof.
  intros Hb Ha Hbound Hnear. destruct f as [s|s| |s m e]; cbn [nearest_double holds_integer] in *;
    try contradiction.
  - subst a. nia.
  - destruct Hnear as (Hd & Hsign & Hineq).
    pose proof (digits2_pos_bounds m) as Hm. rewrite Hd in Hm.
    change (2 ^ (53 - 1)) with 4503599627370496 in Hm.
    change (2 ^ 53) with 9007199254740992 in *.
    set (Q := Z.abs q) in *. set (B := Z.abs b) in *.
    assert (HB : 0 < B) by (subst B; lia).
    assert (HQ : 0 <= Q) by (subst Q; lia).
    assert (Hab : Z.abs a = Q * B) by (subst a Q B; apply Z.abs_mul).
    rewrite Hab in Hineq, Hbound.
    assert (HQB : Q <= Q * B) by nia.
    destruct (Z_le_gt_dec e 0) as [He|He].
    + rewrite (Z.max_l 0 e), (Z.max_r 0 (- e)) in Hineq by lia.
      rewrite Z.pow_0_r, Z.mul_1_r, Z.mul_1_l in Hineq.
      set (P := 2 ^ (- e)) in *. assert (HP : 0 < P) by (apply Z.pow_pos_nonneg; lia).
      replace (Z.pos m * B - Q * B * P) with (B * (Z.pos m - Q * P)) in Hineq by ring.
      rewrite Z.abs_mul, (Z.abs_eq B) in Hineq by lia.
      assert (Hexact : Z.pos m = Q * P) by nia.
      split; [exact He|].
      destruct s.
      * assert (q < 0) by (subst a; nia).
        rewrite <- Pos2Z.opp_pos, Hexact. subst Q. rewrite Z.abs_neq by lia. ring.
      * assert (0 < q) by (subst a; nia).
        rewrite Hexact. subst Q. rewrite Z.abs_eq by lia. reflexivity.
    + exfalso. rewrite (Z.max_r 0 e), (Z.max_l 0 (- e)) in Hineq by lia.
      rewrite Z.pow_0_r, Z.mul_1_r in Hineq.
      set (T := 2 ^ e) in *.
      assert (HT : 2 <= T).
      { subst T. change 2 with (2 ^ 1) at 1. apply Z.pow_le_mono_r; lia. }
      replace (Z.pos m * T * B - Q * B) with (B * (Z.pos m * T - Q)) in Hineq by ring.
      rewrite Z.abs_mul, (Z.abs_eq B) in Hineq by lia.
      assert (Hbig : Q < Z.pos m * T) by nia.
      rewrite Z.abs_eq in Hineq by lia.
      assert (Hhalf : 2 * (Z.pos m * T - Q) <= T) by nia.
      assert (Hm2 : 2 * Z.pos m * 2 <= 2 * Z.pos m * T) by nia.
      nia.
Qed.

(** X16.  When the capacity divides the hundredfold number of running jobs
    evenly, the load is the quotient itself, held exactly: no rounding
    enters.  In particular as many running jobs as there are runners on the
    healthy instances give a load of exactly 100.0. *)
Theorem load_exact_on_even_division (cfg : config) (running_jobs healthy q : Z) :
  0 < healthy ->
  RUNNERS_PER_INSTANCE cfg <> 0 ->
  Z.abs (100 * running_jobs) < 2 ^ 53 ->
  Z.abs (healthy * RUNNERS_PER_INSTANCE cfg) < 2 ^ 53 ->
  100 * running_jobs = q * (healthy * RUNNERS_PER_INSTANCE cfg) ->
  exists f,
    runners_overall_load cfg running_jobs healthy = Ok (PFloat f)
    /\ holds_integer f q.
Proof.
  intros Hh Hc Ha Hb Hq.
  destruct (runners_overall_load_near cfg running_jobs healthy Hh Hc Ha Hb)
    as (f & Hload & Hnear).
  exists f. split; [exact Hload|].
  apply (nearest_double_exact f (100 * running_jobs) (healthy * RUNNERS_PER_INSTANCE cfg));
    [nia|exact Hq| |exact Hnear].
  change (2 ^ 53) with 9007199254740992 in *. lia.
Qed.

(** Eight running jobs on two healthy instances of four runners: 100.0. *)
Lemma load_exact_on_even_division_sample :
  exists f,
    runners_overall_load sample_cfg 8 2 = Ok (PFloat f) /\ holds_integer f 100.
Proof.
  exact (load_exact_on_even_division sample_cfg 8 2 100
           ltac:(lia) ltac:(discriminate) ltac:(reflexivity) ltac:(reflexivity) eq_refl).
Defined.

(** ** Discovery through timeouts *)

Lemma get_request_after_timeouts url token k res rest w :
  (k <= 7)%nat ->
  http_script w = timeouts k ++ Returns res :: rest ->
  exists w',
    get_request url token w = (Ok res, w')
    /\ http_script w' = rest
    /\ http_log w' = http_log w ++ repeat (url, token) (S k).
Proof.
  intros Hk Hs.
  destruct (retry_after_timeouts url token k res rest 7 w Hk Hs) as (w' & Hrun & Hs' & Hl' & _).
  exists w'. auto.
Qed.

Lemma project_pages_inner_slow strptime cutoff token (pre : list (nat * (response * string))) :
  Forall (fun p => (fst p <= 7)%nat /\ inner_page strptime (snd p)) pre ->
  forall fuel link project_ids script w,
    http_script w = slow_answers pre ++ script ->
    exists w',
      project_pages strptime (length pre + fuel) cutoff token link project_ids w
      = project_pages strptime fuel cutoff token (link_after link (map snd pre))
          (project_ids
           ++ active_ids strptime cutoff (flat_map (fun p => json (fst (snd p))) pre)) w'
      /\ http_script w' = script
      /\ http_log w' = http_log w ++ slow_requests token link pre.
Proof.
  induction 1 as [|[k [res next]] pre [Hk (Hst & Hwf & links & Hl & Hn)] _ IH];
    intros fuel link project_ids script w Hs.
  - exists w. cbn [length map flat_map slow_requests Nat.add]. unfold link_after.
    change (active_ids strptime cutoff []) with (@nil jvalue).
    rewrite !app_nil_r. repeat split. exact Hs.
  - cbn [fst snd] in *. unfold slow_answers in Hs. cbn [flat_map fst snd] in Hs.
    rewrite <- !app_assoc in Hs. cbn [app] in Hs. fold (slow_answers pre) in Hs.
    destruct (get_request_after_timeouts link token k res _ w Hk Hs)
      as (w1 & Hget & Hs1 & Hl1).
    destruct (IH fuel next (project_ids ++ active_ids strptime cutoff (json res)) script w1 Hs1)
      as (w' & Hrun & Hs' & Hl').
    exists w'. split; [|split; [exact Hs'|]].
    + change (length ((k, (res, next)) :: pre) + fuel)%nat with (S (length pre + fuel)).
      cbn [project_pages]. rewrite (bind_returns _ _ _ _ _ Hget).
      rewrite Hst. cbn [Z.eqb Pos.eqb negb].
      rewrite (scan_projects_spec _ _ _ _ Hwf), bind_lift_ok, Hl, Hn, bind_lift_ok.
      rewrite Hrun. unfold link_after. cbn [map snd flat_map fst].
      rewrite last_cons, active_ids_app, app_assoc. reflexivity.
    + rewrite Hl', Hl1, <- app_assoc. reflexivity.
Qed.

Lemma length_slow_answers (pre : list (nat * (response * string))) :
  (length pre <= length (slow_answers pre))%nat.
Proof.
  induction pre as [|p pre IH]; [reflexivity|].
  unfold slow_answers in *. cbn [flat_map length]. rewrite !length_app. simpl. lia.
Qed.

(** X17.  Timeouts do not show in what discovery returns: when up to seven
    requests time out before each page of the listing is delivered, the ids
    returned are those returned without any timeout, the active projects of
    all pages in order, and each page has been requested once more than it
    timed out. *)
Theorem discovery_through_timeouts (strptime : string -> option datetime) (cfg : config)
    (token : string) (pre : list (nat * (response * string))) (k : nat) (last : response)
    (rest : list (outcome response)) (w : world) :
  Forall (fun p => (fst p <= 7)%nat /\ inner_page strptime (snd p)) pre ->
  (k <= 7)%nat ->
  final_page strptime last ->
  http_script w = slow_answers pre ++ timeouts k ++ Returns last :: rest ->
  exists w',
    get_all_project_ids strptime cfg token w
    = (Ok (active_ids strptime (clock w - timedelta_hours 4)
             (flat_map (fun p => json (fst (snd p))) pre ++ json last)), w')
    /\ http_script w' = rest
    /\ http_log w'
       = http_log w ++ slow_requests token (first_link cfg) pre
         ++ repeat (link_after (first_link cfg) (map snd pre), token) (S k).
Proof.
  intros Hpre Hk (Hst & Hwf & Hlinks) Hs.
  set (cutoff := clock w - timedelta_hours 4).
  pose proof (length_slow_answers pre) as Hlen.
  assert (Hrun : exists fuel,
             get_all_project_ids strptime cfg token w
             = project_pages strptime (length pre + S fuel) cutoff token
                 (first_link cfg) [] w).
  { exists (length (http_script w) - length pre)%nat.
    unfold get_all_project_ids, bind, utcnow. fold cutoff. f_equal.
    rewrite Hs, !length_app. simpl. lia. }
  destruct Hrun as (fuel & Hrun).
  destruct (project_pages_inner_slow strptime cutoff token pre Hpre (S fuel)
              (first_link cfg) [] _ w Hs) as (w1 & Hrun1 & Hs1 & Hl1).
  rewrite Hrun1 in Hrun. cbn [app] in Hrun.
  destruct (get_request_after_timeouts (link_after (first_link cfg) (map snd pre)) token
              k last rest w1 Hk Hs1) as (w2 & Hget & Hs2 & Hl2).
  exists w2. split; [|split; [exact Hs2|]].
  - rewrite Hrun. cbn [project_pages]. rewrite (bind_returns _ _ _ _ _ Hget).
    rewrite Hst. cbn [Z.eqb Pos.eqb negb].
    rewrite (scan_projects_spec _ _ _ _ Hwf), bind_lift_ok, Hlinks, active_ids_app.
    reflexivity.
  - rewrite Hl2, Hl1, <- app_assoc. reflexivity.
Qed.

Lemma discovery_through_timeouts_sample :
  exists w',
    get_all_project_ids strptime_padded sample_cfg "glpat-sample"
      (sample_world [Raises Timeout; Raises Timeout; Returns sample_page1;
                     Raises Timeout; Returns sample_page2])
    = (Ok [JInt 1; JInt 4], w')
    /\ length (http_log w') = 5%nat.
Proof.
  destruct (discovery_through_timeouts strptime_padded sample_cfg "glpat-sample"
              [(2%nat, (sample_page1, "https://x/page2"))] 1 sample_page2 []
              (sample_world [Raises Timeout; Raises Timeout; Returns sample_page1;
                             Raises Timeout; Returns sample_page2])
              ltac:(constructor; [split; [simpl; lia|exact sample_page1_inner]|constructor])
              ltac:(lia) sample_page2_final eq_refl)
    as (w' & Hrun & _ & Hlog).
  exists w'. split; [exact Hrun|]. rewrite Hlog. reflexivity.
Defined.

(** ** Sample runs of the further properties *)

(** Seven timeouts and then an answer; eight timeouts. *)
Lemma get_request_retries_timeouts_sample :
  (exists w',
      get_request "https://x/page2" "glpat-sample"
        (sample_world (timeouts 7 ++ [Returns sample_page2]))
      = (Ok sample_page2, w')
      /\ length (http_log w') = 8%nat)
  /\ (exists w',
         get_request "https://x/page2" "glpat-sample"
           (sample_world (timeouts 8 ++ [Returns sample_page2]))
         = (Raise Timeout, w')
         /\ length (http_log w') = 8%nat
         /\ http_script w' = [Returns sample_page2]).
Proof.
  split.
  - destruct (proj1 (get_request_retries_timeouts "https://x/page2" "glpat-sample" []
                       (sample_world (timeouts 7 ++ [Returns sample_page2])))
                7%nat sample_page2 ltac:(lia) eq_refl) as (w' & Hrun & _ & Hlog).
    exists w'. split; [exact Hrun|]. rewrite Hlog. reflexivity.
  - destruct (proj2 (get_request_retries_timeouts "https://x/page2" "glpat-sample"
                       [Returns sample_page2]
                       (sample_world (timeouts 8 ++ [Returns sample_page2])))
                eq_refl) as (w' & Hrun & Hscript & Hlog).
    exists w'. split; [exact Hrun|]. split; [rewrite Hlog; reflexivity|exact Hscript].
Defined.

(** An answer with status 500, and a connection that fails. *)
Lemma get_request_retries_nothing_else_sample :
  (exists w',
      get_request "https://x/page2" "glpat-sample"
        (sample_world [Returns (sample_answer 500 []); Returns sample_page2])
      = (Ok (sample_answer 500 []), w')
      /\ http_script w' = [Returns sample_page2])
  /\ (exists w',
         get_request "https://x/page2" "glpat-sample"
           (sample_world [Raises ConnectionError; Returns sample_page2])
         = (Raise ConnectionError, w')
         /\ http_script w' = [Returns sample_page2]).
Proof.
  split.
  - destruct (proj1 (get_request_retries_nothing_else "https://x/page2" "glpat-sample"
                       [Returns sample_page2]
                       (sample_world [Returns (sample_answer 500 []); Returns sample_page2]))
                (sample_answer 500 []) eq_refl) as (w' & Hrun & Hscript & _).
    exists w'. split; assumption.
  - destruct (proj2 (get_request_retries_nothing_else "https://x/page2" "glpat-sample"
                       [Returns sample_page2]
                       (sample_world [Raises ConnectionError; Returns sample_page2]))
                ConnectionError ltac:(discriminate) eq_refl) as (w' & Hrun & Hscript & _).
    exists w'. split; assumption.
Defined.

Lemma sample_project_well_formed :
  Forall (well_formed strptime_padded) [sample_project 1 "2020-05-17T10:00:00.000Z"].
Proof. repeat constructor; eexists; vm_compute; reflexivity. Defined.

(** A page whose second project has no id. *)
Lemma discovery_raises_on_malformed_project_sample :
  exists w',
    get_all_project_ids strptime_padded sample_cfg "glpat-sample"
      (sample_world [Returns sample_page_without_id; Returns sample_page2])
    = (Raise (KeyError "id"), w')
    /\ http_script w' = [Returns sample_page2].
Proof.
  exact (proj1 (discovery_raises_on_malformed_project strptime_padded sample_cfg
                  "glpat-sample" [] sample_page_without_id
                  [sample_project 1 "2020-05-17T10:00:00.000Z"] []
                  (<["last_activity_at" := JStr "2020-05-17T10:00:00.000Z"]> ∅)
                  [Returns sample_page2]
                  (sample_world [Returns sample_page_without_id; Returns sample_page2])
                  (List.Forall_nil _) eq_refl eq_refl sample_project_well_formed eq_refl)
           eq_refl).
Defined.

(** The two sample pages list four distinct ids, of which two are returned. *)
Lemma discovery_keeps_order_sample :
  exists ids w',
    get_all_project_ids strptime_padded sample_cfg "glpat-sample"
      (sample_world [Returns sample_page1; Returns sample_page2])
    = (Ok ids, w')
    /\ sublist ids [JInt 1; JInt 2; JInt 3; JInt 4]
    /\ NoDup ids.
Proof.
  destruct (discovery_keeps_order strptime_padded sample_cfg "glpat-sample"
              [(sample_page1, "https://x/page2")] sample_page2 []
              (sample_world [Returns sample_page1; Returns sample_page2])
              sample_listing_inner sample_page2_final eq_refl)
    as (ids & w' & Hrun & Hsub & _ & Hnodup).
  exists ids, w'. split; [exact Hrun|]. split; [exact Hsub|].
  apply Hnodup. vm_compute.
  repeat (apply NoDup_cons_2; [rewrite ?elem_of_cons, ?elem_of_nil; intuition discriminate|]).
  apply NoDup_nil_2.
Defined.

Lemma sample_first_answer_has_ids :
  Forall (fun a => Forall has_id (jobs_of (fst a)) /\ Forall has_id (jobs_of (snd a)))
    [(sample_answer 200 (sample_jobs 100 3), sample_answer 200 (sample_jobs 200 1))].
Proof. repeat constructor; eexists; vm_compute; reflexivity. Defined.

(** The connection fails on the pending listing of the second project. *)
Lemma job_listing_exception_aborts_sample :
  exists w',
    get_number_of_pending_and_running_jobs strptime_padded sample_cfg "glpat-sample"
      (sample_world [Returns sample_three_projects;
                     Returns (sample_answer 200 (sample_jobs 100 3));
                     Returns (sample_answer 200 (sample_jobs 200 1));
                     Raises ConnectionError;
                     Returns (sample_answer 200 [])])
    = (Raise ConnectionError, w')
    /\ http_script w' = [Returns (sample_answer 200 [])].
Proof.
  destruct (proj1 (job_listing_exception_aborts strptime_padded sample_cfg "glpat-sample"
                     [JInt 11] [JInt 13] (JInt 12)
                     [(sample_answer 200 (sample_jobs 100 3),
                       sample_answer 200 (sample_jobs 200 1))]
                     ConnectionError [Returns (sample_answer 200 [])]
                     (sample_world [Returns sample_three_projects;
                                    Returns (sample_answer 200 (sample_jobs 100 3));
                                    Returns (sample_answer 200 (sample_jobs 200 1));
                                    Raises ConnectionError;
                                    Returns (sample_answer 200 [])])
                     (snd (get_all_project_ids strptime_padded sample_cfg "glpat-sample"
                             (sample_world [Returns sample_three_projects;
                                            Returns (sample_answer 200 (sample_jobs 100 3));
                                            Returns (sample_answer 200 (sample_jobs 200 1));
                                            Raises ConnectionError;
                                            Returns (sample_answer 200 [])])))
                     ltac:(vm_compute; reflexivity) eq_refl sample_first_answer_has_ids
                     ltac:(discriminate))
              ltac:(vm_compute; reflexivity))
    as (w' & Hrun & Hscript & _).
  exists w'. split; assumption.
Defined.

(** The pending listing of the first project holds a job without an id. *)
Lemma job_without_id_aborts_sample :
  exists w',
    get_number_of_pending_and_running_jobs strptime_padded sample_cfg "glpat-sample"
      (sample_world [Returns sample_three_projects;
                     Returns sample_jobs_without_id;
                     Returns (sample_answer 200 []);
                     Returns (sample_answer 200 [])])
    = (Raise (KeyError "id"), w')
    /\ http_script w' = [Returns (sample_answer 200 [])]
    /\ length (http_log w') = 3%nat.
Proof.
  destruct (job_without_id_aborts strptime_padded sample_cfg "glpat-sample"
              [] [JInt 12; JInt 13] (JInt 11) []
              sample_jobs_without_id (sample_answer 200 [])
              [sample_job 100] [] ∅ [Returns (sample_answer 200 [])]
              (sample_world [Returns sample_three_projects;
                             Returns sample_jobs_without_id;
                             Returns (sample_answer 200 []);
                             Returns (sample_answer 200 [])])
              (snd (get_all_project_ids strptime_padded sample_cfg "glpat-sample"
                      (sample_world [Returns sample_three_projects;
                                     Returns sample_jobs_without_id;
                                     Returns (sample_answer 200 []);
                                     Returns (sample_answer 200 [])])))
              ltac:(vm_compute; reflexivity) eq_refl (List.Forall_nil _)
              ltac:(vm_compute; reflexivity)
              ltac:(repeat constructor; eexists; vm_compute; reflexivity)
              eq_refl (or_introl eq_refl))
    as (w' & Hrun & Hscript & Hlog).
  exists w'. split; [exact Hrun|]. split; [exact Hscript|]. rewrite Hlog. reflexivity.
Defined.

(** No group described; a group described without its instances. *)
Lemma healthy_count_without_instances_sample :
  fst (get_asg_healthy_instances_in_service sample_cfg (sample_asg_world [Returns []]))
  = Raise IndexError
  /\ fst (get_asg_healthy_instances_in_service sample_cfg
            (sample_asg_world [Returns [ {| Instances := None |} ]]))
     = Ok 0.
Proof.
  split.
  - exact (proj1 (healthy_count_without_instances sample_cfg []
                    (sample_asg_world [Returns []])) eq_refl).
  - exact (proj2 (healthy_count_without_instances sample_cfg []
                    (sample_asg_world [Returns [ {| Instances := None |} ]])) [] eq_refl).
Defined.
